(** * TTS/tts/datasets/__init__.py: the dataset splitter, the corpus
      aggregator and the character census, embedded in Rocq.

    The Python code is translated function by function.  Exceptions are
    values of [outcome], NumPy's process-wide random state is threaded
    explicitly, and the rejection-sampling loop of [split_dataset], which
    has no bound in the source, runs on fuel. *)

From Stdlib Require Import ZArith Lia String Ascii.
From stdpp Require Import gmap strings list sorting.

Local Open Scope nat_scope.

(** ** Python values *)

(** A Python [str] is a sequence of Unicode code points. *)
Abbreviation char := N.
Abbreviation str := (list N).

(** An ASCII literal as a [str]. *)
Definition u (s : string) : str := N_of_ascii <$> list_ascii_of_string s.
Arguments u s%_string.

(** A sample is the Python list [[audio_path, text, speaker_id]]; the
    aggregator may append a fourth field to it. *)
Abbreviation sample := (list (list N)).

Inductive exn : Set :=
  | AssertionError
  | IndexError
  | KeyError
  | ValueError
  | NameError
  | AttributeError
  | TypeError
  | OSError.

(** The result of running a piece of Python: a value, a raised exception,
    or a loop that was still running when the fuel ran out. *)
Inductive outcome (A : Type) : Type :=
  | Ret (a : A)
  | Raise (e : exn)
  | OutOfFuel.
Arguments Ret {A} a.
Arguments Raise {A} e.
Arguments OutOfFuel {A}.

#[export] Instance exn_eq_dec : EqDecision exn.
Proof. solve_decision. Defined.

#[export] Instance outcome_eq_dec {A} `{EqDecision A} : EqDecision (outcome A).
Proof. solve_decision. Defined.

Definition obind {A B} (o : outcome A) (k : A → outcome B) : outcome B :=
  match o with
  | Ret a => k a
  | Raise e => Raise e
  | OutOfFuel => OutOfFuel
  end.

(** A comprehension or [for] loop whose body may raise: left to right, the
    first exception wins. *)
Fixpoint omapM {A B} (f : A → outcome B) (l : list A) : outcome (list B) :=
  match l with
  | [] => Ret []
  | x :: l => obind (f x) (λ y, obind (omapM f l) (λ ys, Ret (y :: ys)))
  end.

(** Python code that reads and writes a state [S] and may raise. *)
Definition M (S A : Type) : Type := S → outcome A * S.

Definition ret {S A} (a : A) : M S A := λ s, (Ret a, s).
Definition raise {S A} (e : exn) : M S A := λ s, (Raise e, s).
Definition diverge {S A} : M S A := λ s, (OutOfFuel, s).
Definition lift {S A} (o : outcome A) : M S A := λ s, (o, s).
Definition bind {S A B} (m : M S A) (k : A → M S B) : M S B :=
  λ s, match m s with
       | (Ret a, s') => k a s'
       | (Raise e, s') => (Raise e, s')
       | (OutOfFuel, s') => (OutOfFuel, s')
       end.

Notation "x ←' m ; k" := (bind m (λ x, k))
  (at level 20, m at level 100, k at level 200, only parsing, right associativity).
Notation "m ;;' k" := (bind m (λ _, k))
  (at level 100, k at level 200, only parsing, right associativity).

(** [assert b] *)
Definition py_assert {S} (b : bool) : M S unit :=
  if b then ret () else raise AssertionError.

(** ** NumPy's global random state

    [np.random] is an external collaborator.  Its generator is taken as an
    interface: a type of states, the three operations the module calls, and
    the two facts about them that NumPy documents (a shuffle permutes, a
    draw lies in the requested half-open range). *)
Class RandomState (G : Type) := {
  (** [np.random.seed(n)]: overwrite the global state. *)
  rs_seed : nat → G;
  (** [np.random.shuffle(l)]: the reordered contents of [l]. *)
  rs_shuffle : ∀ {A : Type}, G → list A → list A * G;
  (** [np.random.randint(low, high)] when [low < high]. *)
  rs_randint : G → nat → nat → nat * G;
  rs_shuffle_perm : ∀ (A : Type) (g : G) (l : list A), (rs_shuffle g l).1 ≡ₚ l;
  rs_randint_range : ∀ (g : G) (low high : nat),
    low < high → low ≤ (rs_randint g low high).1 < high;
}.

Definition seed `{RandomState G} (n : nat) : M G unit :=
  λ _, (Ret (), rs_seed n).

Definition shuffle `{RandomState G} {A} (l : list A) : M G (list A) :=
  λ g, let '(l', g') := rs_shuffle g l in (Ret l', g').

(** [np.random.randint(low, high)] raises [ValueError] on an empty range. *)
Definition randint `{RandomState G} (low high : nat) : M G nat :=
  λ g, if low <? high
       then let '(n, g') := rs_randint g low high in (Ret n, g')
       else (Raise ValueError, g).

(** ** [split_dataset] on list contents *)

(** [item[-1]] *)
Definition item_speaker (item : sample) : outcome str :=
  match last item with
  | Some s => Ret s
  | None => Raise IndexError
  end.

(** [[item[-1] for item in items]] *)
Definition speakers_of (items : list sample) : outcome (list str) :=
  omapM item_speaker items.

(** [collections.Counter(speakers)] *)
Definition Counter (l : list str) : gmap str nat :=
  foldl (λ m s, <[s := S (default 0 (m !! s))]> m) ∅ l.

(** [speaker_counter[s]]: a missing key reads as 0 and is not inserted. *)
Definition counter_get (m : gmap str nat) (s : str) : nat :=
  default 0 (m !! s).

(** The variables the [while] loop of [split_dataset] reads and writes. *)
Record loop_state := LoopState {
  items : list sample;
  items_eval : list sample;
  speaker_counter : gmap str nat;
}.

(** Lines 29-35.  One unit of fuel pays for one pass through the loop
    body. *)
Fixpoint sample_eval `{RandomState G} (fuel eval_split_size : nat)
    (st : loop_state) : M G loop_state :=
  if length (items_eval st) <? eval_split_size then
    match fuel with
    | 0 => diverge
    | S fuel =>
      item_idx ←' randint 0 (length (items st));
      match items st !! item_idx with
      | None => raise IndexError
      | Some item =>
        speaker_to_be_removed ←' lift (item_speaker item);
        if 1 <? counter_get (speaker_counter st) speaker_to_be_removed then
          sample_eval fuel eval_split_size
            {| items := delete item_idx (items st);
               items_eval := items_eval st ++ [item];
               speaker_counter :=
                 <[speaker_to_be_removed :=
                     counter_get (speaker_counter st) speaker_to_be_removed - 1]>
                   (speaker_counter st) |}
        else sample_eval fuel eval_split_size st
      end
    end
  else ret st.

(** [len(set(speakers)) > 1] *)
Definition is_multi_speaker (speakers : list str) : bool :=
  1 <? size (list_to_set speakers : gset str).

(** [min(500, int(len(items) * 0.01))].  The double nearest to 0.01
    exceeds 1/100 by a relative 2.1e-17, less than half a unit in the last
    place, so for every list length below 10^15 the rounded product
    truncates to the integer quotient by 100. *)
Definition eval_split_size_of (items : list sample) : nat :=
  500 `min` (length items / 100).

(** [split_dataset(items)], on the contents of the lists. *)
Definition split_dataset `{RandomState G} (fuel : nat) (items : list sample)
    : M G (list sample * list sample) :=
  speakers ←' lift (speakers_of items);
  let multi := is_multi_speaker speakers in
  let eval_split_size := eval_split_size_of items in
  (py_assert (0 <? eval_split_size) ;;'
  (seed 0 ;;'
  (items ←' shuffle items;
  if multi then
    speakers ←' lift (speakers_of items);
    st ←' sample_eval fuel eval_split_size
            (LoopState items [] (Counter speakers));
    let (items, items_eval, _) := st in
    ret (items_eval, items)
  else
    ret (take eval_split_size items, drop eval_split_size items)))).

(** ** [split_dataset] on list objects

    The caller's list is an object that [split_dataset] shuffles and
    deletes from.  List objects live in a store; the samples inside are not
    written by the splitter and stay values. *)
Abbreviation loc := positive.

Record world (G : Type) := World {
  heap : gmap loc (list sample);
  rng : G;
}.
Arguments World {G} heap rng.
Arguments heap {G} w.
Arguments rng {G} w.

(** Run code that only touches the random state. *)
Definition with_rng {G A} (m : M G A) : M (world G) A :=
  λ w, let '(o, g) := m (rng w) in (o, World (heap w) g).

(** The contents of a list object.  A reference that was never allocated
    cannot arise in Python; it reads as the empty list. *)
Definition load {G} (l : loc) : M (world G) (list sample) :=
  λ w, (Ret (default [] (heap w !! l)), w).

Definition store {G} (l : loc) (v : list sample) : M (world G) unit :=
  λ w, (Ret (), World (<[l := v]> (heap w)) (rng w)).

(** A new list object. *)
Definition alloc {G} (v : list sample) : M (world G) loc :=
  λ w, let l := fresh (dom (heap w)) in
       (Ret l, World (<[l := v]> (heap w)) (rng w)).

(** Lines 29-35 on the objects [items] and [items_eval]. *)
Fixpoint sample_eval_obj `{RandomState G} (fuel eval_split_size : nat)
    (items items_eval : loc) (speaker_counter : gmap str nat)
    : M (world G) unit :=
  ev ←' load items_eval;
  if length ev <? eval_split_size then
    match fuel with
    | 0 => diverge
    | S fuel =>
      its ←' load items;
      item_idx ←' with_rng (randint 0 (length its));
      match its !! item_idx with
      | None => raise IndexError
      | Some item =>
        speaker_to_be_removed ←' lift (item_speaker item);
        if 1 <? counter_get speaker_counter speaker_to_be_removed then
          (ev ←' load items_eval; store items_eval (ev ++ [item])) ;;'
          ((its ←' load items; store items (delete item_idx its)) ;;'
          sample_eval_obj fuel eval_split_size items items_eval
            (<[speaker_to_be_removed :=
                 counter_get speaker_counter speaker_to_be_removed - 1]>
               speaker_counter))
        else
          sample_eval_obj fuel eval_split_size items items_eval speaker_counter
      end
    end
  else ret ().

(** [split_dataset(items)] with [items] a reference; it returns the
    references of the evaluation and training lists. *)
Definition split_dataset_obj `{RandomState G} (fuel : nat) (items : loc)
    : M (world G) (loc * loc) :=
  its ←' load items;
  speakers ←' lift (speakers_of its);
  let multi := is_multi_speaker speakers in
  let eval_split_size := eval_split_size_of its in
  (py_assert (0 <? eval_split_size) ;;'
  (with_rng (seed 0) ;;'
  ((its ←' load items; sh ←' with_rng (shuffle its); store items sh) ;;'
  if multi then
    items_eval ←' alloc [];
    its ←' load items;
    speakers ←' lift (speakers_of its);
    (sample_eval_obj fuel eval_split_size items items_eval (Counter speakers) ;;'
    ret (items_eval, items))
  else
    its ←' load items;
    ev ←' alloc (take eval_split_size its);
    tr ←' alloc (drop eval_split_size its);
    ret (ev, tr)))).

(** ** Strings: the [str] methods the module calls *)

(** [str.isspace] on one code point: the characters [str.strip()]
    removes. *)
Definition unicode_isspace (c : char) : bool :=
  ((9 <=? c) && (c <=? 13) || (28 <=? c) && (c <=? 32) || (c =? 133)
   || (c =? 160) || (c =? 5760) || (8192 <=? c) && (c <=? 8202)
   || (c =? 8232) || (c =? 8233) || (c =? 8239) || (c =? 8287)
   || (c =? 12288))%N.

Fixpoint py_lstrip (s : str) : str :=
  match s with
  | [] => []
  | c :: s' => if unicode_isspace c then py_lstrip s' else s
  end.

(** [s.strip()] *)
Definition py_strip (s : str) : str :=
  reverse (py_lstrip (reverse (py_lstrip s))).

Fixpoint split_go (sep : char) (cur : str) (s : str) : list str :=
  match s with
  | [] => [cur]
  | c :: s => if (c =? sep)%N then cur :: split_go sep [] s
              else split_go sep (cur ++ [c]) s
  end.

(** [s.split(sep)] for a separator of one character. *)
Definition py_split (sep : char) (s : str) : list str := split_go sep [] s.

Fixpoint readlines_go (cur : str) (text : str) : list str :=
  match text with
  | [] => match cur with [] => [] | _ => [cur] end
  | c :: text => if (c =? 10)%N then (cur ++ [c]) :: readlines_go [] text
                 else readlines_go (cur ++ [c]) text
  end.

(** [f.readlines()] on the decoded text of a file: every line keeps its
    newline. *)
Definition readlines (text : str) : list str := readlines_go [] text.

(** [str.islower] and [str.lower] on one code point, from the Unicode
    character database for Basic Latin and the Latin-1 Supplement
    (U+0000 to U+00FF).  The table stops there: it reads a code point above
    U+00FF as uncased. *)
Definition unicode_islower (c : char) : bool :=
  ((97 <=? c) && (c <=? 122) || (c =? 170) || (c =? 181) || (c =? 186)
   || (223 <=? c) && (c <=? 246) || (248 <=? c) && (c <=? 255))%N.

Definition unicode_lower (c : char) : str :=
  if ((65 <=? c) && (c <=? 90) || (192 <=? c) && (c <=? 214)
      || (216 <=? c) && (c <=? 222))%N
  then [(c + 32)%N] else [c].

(** [s.lower()] *)
Definition py_lower (s : str) : str := concat (unicode_lower <$> s).

(** Truth value of a [str] or a list: non-empty. *)
Definition truthy {A} (l : list A) : bool :=
  match l with [] => false | _ => true end.

(** ** The aggregator

    Samples are values here.  A formatter builds a new list for every line
    of its manifest, so no sample object occurs twice in the accumulators,
    and appending a field to each sample in place is a map over the
    list. *)

(** What a formatter is called with: a keyword dictionary whose values are
    strings or the symbol-embedding object. *)
Inductive pyval (SE : Type) : Type :=
  | VStr (s : str)
  | VSymbolEmbedding (e : SE).
Arguments VStr {SE} s.
Arguments VSymbolEmbedding {SE} e.

(** One entry of [config.datasets]. *)
Record dataset := Dataset {
  name : str;
  path : str;
  meta_file_train : str;
  meta_file_val : str;
  meta_file_attn_mask : str;
}.

(** The fields of the Coqpit config that [load_tts_samples] reads; [None]
    stands for a field that is absent or holds [None]. *)
Record config (SE : Type) := Config {
  datasets : option (list dataset);
  symbol_embedding_filename : option str;
  symbol_embedding : option SE;
}.
Arguments Config {SE} datasets symbol_embedding_filename symbol_embedding.
Arguments datasets {SE} c.
Arguments symbol_embedding_filename {SE} c.
Arguments symbol_embedding {SE} c.

(** What the module finds around it: the attributes the star imports put
    in its namespace, the [SymbolEmbedding] class and the file system.
    None of it is defined in this file.

    - [module_attr n] is [getattr(thismodule, n)]; an attribute that is not
      callable is a formatter that raises [TypeError].
    - [formatter_args] is the global name of line 83, which the function
      indexes but never binds: [None] when no import binds it.
    - [open_text p] is the decoded text of the file at [p]. *)
Record module_env (SE : Type) := ModuleEnv {
  SymbolEmbedding : str → outcome SE;
  module_attr : str → option (gmap string (pyval SE) → outcome (list sample));
  formatter_args : option (gmap string (pyval SE));
  open_text : str → option str;
}.
Arguments ModuleEnv {SE} SymbolEmbedding module_attr formatter_args open_text.
Arguments SymbolEmbedding {SE} m.
Arguments module_attr {SE} m.
Arguments formatter_args {SE} m.
Arguments open_text {SE} m.

Section Aggregator.
Context {SE : Type} (env : module_env SE).
Context `{RandomState G}.

Abbreviation kwargs := (gmap string (pyval SE)).
Abbreviation formatter_fn := (gmap string (pyval SE) → outcome (list sample)).

(** [load_attention_mask_meta_data(metafile_path)] *)
Definition load_attention_mask_meta_data (metafile_path : str)
    : outcome (list (str * str)) :=
  match open_text env metafile_path with
  | None => Raise OSError
  | Some text =>
    omapM (λ line,
             match py_split 124 line with
             | [wav_file; attn_file] => Ret (wav_file, attn_file)
             | _ => Raise ValueError
             end)
          (readlines text)
  end.

(** [_get_formatter_by_name(name)] *)
Definition _get_formatter_by_name (name : str) : outcome formatter_fn :=
  match module_attr env (py_lower name) with
  | Some f => Ret f
  | None => Raise AttributeError
  end.

(** [dict(pairs)]: a later pair replaces an earlier one with the same
    key. *)
Definition dict (pairs : list (str * str)) : gmap str str :=
  foldl (λ m kv, <[kv.1 := kv.2]> m) ∅ pairs.

(** Lines 109-110 (and 113-114) for one sample:
    [ins.append(meta_data[ins[1]].strip())]. *)
Definition attach_attn (meta_data : gmap str str) (ins : sample)
    : outcome sample :=
  match ins !! 1 with
  | None => Raise IndexError
  | Some key =>
    match meta_data !! key with
    | None => Raise KeyError
    | Some attn_file => Ret (ins ++ [py_strip attn_file])
    end
  end.

(** The variables the [for] loop over the corpora carries from one pass to
    the next. *)
Record loader_state := LoaderState {
  meta_data_train_all : list sample;
  meta_data_eval_all : option (list sample);
  formatter : option formatter_fn;
  formatter_args_now : option kwargs;
}.

(** Lines 81-104: resolve the formatter, load the corpus, split it, and
    extend the accumulators.  The result is the two accumulators and the
    contents of [formatter_args]. *)
Definition load_corpus (fuel : nat) (eval_split : bool)
    (preprocessor_args : kwargs) (st : loader_state) (dataset : dataset)
    : M G (list sample * option (list sample) * kwargs) :=
  let root_path := path dataset in
  formatter_args ←' lift (match formatter_args_now st with
                          | Some d => Ret d
                          | None => Raise NameError
                          end);
  let formatter_args := <["root_path" := VStr root_path]> formatter_args in
  formatter ←' lift (match formatter st with
                     | Some f => Ret f
                     | None => _get_formatter_by_name (name dataset)
                     end);
  let formatter_args :=
    <["meta_file" := VStr (meta_file_train dataset)]> formatter_args in
  meta_data_train ←' lift (formatter formatter_args);
  split ←'
    (if eval_split then
       if truthy (meta_file_val dataset) then
         let formatter_args :=
           <["meta_file" := VStr (meta_file_val dataset)]> formatter_args in
         meta_data_eval ←' lift (formatter preprocessor_args);
         ret (Some meta_data_eval, meta_data_train, formatter_args)
       else
         r ←' split_dataset fuel meta_data_train;
         ret (Some r.1, r.2, formatter_args)
     else ret (None, meta_data_train, formatter_args));
  let '(meta_data_eval, meta_data_train, formatter_args) := split in
  let meta_data_eval_all :=
    match meta_data_eval_all st, meta_data_eval with
    | Some all, Some ev => Some (all ++ ev)
    | all, _ => all
    end in
  let meta_data_train_all := meta_data_train_all st ++ meta_data_train in
  ret (meta_data_train_all, meta_data_eval_all, formatter_args).

(** Lines 106-114: attach the attention files of the corpus. *)
Definition load_attn_masks (dataset : dataset)
    (meta_data_train_all : list sample)
    (meta_data_eval_all : option (list sample))
    : outcome (list sample * option (list sample)) :=
  if truthy (meta_file_attn_mask dataset) then
    obind (load_attention_mask_meta_data (meta_file_attn_mask dataset))
      (λ pairs,
    let meta_data := dict pairs in
    obind (omapM (attach_attn meta_data) meta_data_train_all)
      (λ meta_data_train_all,
    match meta_data_eval_all with
    | Some (i :: l) =>
      obind (omapM (attach_attn meta_data) (i :: l))
        (λ l', Ret (meta_data_train_all, Some l'))
    | other => Ret (meta_data_train_all, other)
    end))
  else Ret (meta_data_train_all, meta_data_eval_all).

(** Lines 81-116: the body of the loop, for one corpus. *)
Definition load_dataset (fuel : nat) (eval_split : bool)
    (preprocessor_args : kwargs) (st : loader_state) (dataset : dataset)
    : M G loader_state :=
  loaded ←' load_corpus fuel eval_split preprocessor_args st dataset;
  let '(meta_data_train_all, meta_data_eval_all, formatter_args) := loaded in
  all ←' lift (load_attn_masks dataset meta_data_train_all meta_data_eval_all);
  ret (LoaderState all.1 all.2 None (Some formatter_args)).

(** Line 80: [for dataset in datasets]. *)
Fixpoint for_datasets (fuel : nat) (eval_split : bool)
    (preprocessor_args : kwargs) (datasets : list dataset) (st : loader_state)
    : M G loader_state :=
  match datasets with
  | [] => ret st
  | dataset :: datasets =>
    st ←' load_dataset fuel eval_split preprocessor_args st dataset;
    for_datasets fuel eval_split preprocessor_args datasets st
  end.

(** Lines 70-77: the symbol embedding, when the config names or holds one,
    is the only entry of [preprocessor_args]. *)
Definition preprocessor_args_of (config : config SE) : outcome kwargs :=
  obind (match symbol_embedding_filename config with
         | Some filename =>
           obind (SymbolEmbedding env filename) (λ e, Ret (Some e))
         | None => Ret (symbol_embedding config)
         end) (λ symbol_embedding,
  Ret (match symbol_embedding with
       | Some e => {["symbol_embedding"%string := VSymbolEmbedding e]}
       | None => ∅
       end)).

(** [load_tts_samples(config, eval_split, formatter)].  The progress line
    it prints for each corpus is not modelled. *)
Definition load_tts_samples (fuel : nat) (config : config SE)
    (eval_split : bool) (formatter : option formatter_fn)
    : M G (option (list sample) * option (list sample)) :=
  match datasets config with
  | None => ret (None, None)
  | Some datasets =>
    preprocessor_args ←' lift (preprocessor_args_of config);
    st ←' for_datasets fuel eval_split preprocessor_args datasets
            (LoaderState [] (if eval_split then Some [] else None)
               formatter (formatter_args env));
    ret (Some (meta_data_train_all st), meta_data_eval_all st)
  end.
End Aggregator.

(** ** The character census *)

(** Code-point order on strings, the order of [sorted] on a set of [str]. *)
Fixpoint str_leb (s t : str) : bool :=
  match s, t with
  | [], _ => true
  | _ :: _, [] => false
  | a :: s, b :: t => ((a <? b) || (a =? b) && str_leb s t)%N
  end.

(** What the four [print] calls show: the numbers and strings interpolated
    into the four lines. *)
Record census := Census {
  number_of_unique_characters : nat;
  unique_characters : str;
  unique_lower_characters : str;
  unique_all_forced_to_lower_characters : str;
}.

(** [find_unique_chars(data_samples, verbose)]: the returned set and, when
    [verbose], what was printed. *)
Definition find_unique_chars (data_samples : list sample) (verbose : bool)
    : outcome (gset str * option census) :=
  obind (omapM (λ item : sample,
                  match item !! 0 with
                  | Some text => Ret text
                  | None => Raise IndexError
                  end) data_samples) (λ parts,
  let texts := concat parts in
  let chars : gset char := list_to_set texts in
  let lower_chars : gset char := filter (λ c, Is_true (unicode_islower c)) chars in
  let chars_force_lower : gset str := set_map unicode_lower chars in
  Ret (chars_force_lower,
       if verbose then
         Some {| number_of_unique_characters := size chars;
                 unique_characters := merge_sort N.le (elements chars);
                 unique_lower_characters :=
                   merge_sort N.le (elements lower_chars);
                 unique_all_forced_to_lower_characters :=
                   concat (merge_sort (λ s t, Is_true (str_leb s t))
                             (elements chars_force_lower)) |}
       else None)).

(** ** A concrete generator and concrete corpora for the examples

    A linear congruential generator stands in for NumPy's Mersenne Twister
    where an example has to run. *)
Definition lcg_next (g : N) : N :=
  ((g * 1103515245 + 12345) mod 2147483648)%N.

Definition lcg_randint (g : N) (low high : nat) : nat * N :=
  (low + N.to_nat (g mod N.of_nat (high - low))%N, lcg_next g).

Fixpoint lcg_shuffle_go {A} (n : nat) (g : N) (l : list A) : list A * N :=
  match n with
  | 0 => (l, g)
  | S n =>
    let j := N.to_nat (g mod N.of_nat (length l))%N in
    match l !! j with
    | Some x =>
      let '(r, g') := lcg_shuffle_go n (lcg_next g) (delete j l) in (x :: r, g')
    | None => (l, g)
    end
  end.

Definition lcg_shuffle {A} (g : N) (l : list A) : list A * N :=
  lcg_shuffle_go (length l) g l.

Lemma lcg_shuffle_go_perm {A} (n : nat) (g : N) (l : list A) :
  (lcg_shuffle_go n g l).1 ≡ₚ l.
Proof.
  revert g l. induction n as [|n IH]; intros g l; simpl; [done|].
  destruct (l !! _) as [x|] eqn:Hx; [|done].
  specialize (IH (lcg_next g) (delete (N.to_nat (g mod N.of_nat (length l))%N) l)).
  destruct (lcg_shuffle_go n _ _) as [r g']. simpl in *.
  rewrite IH. symmetry. by apply delete_Permutation.
Qed.

Lemma lcg_randint_range (g : N) (low high : nat) :
  low < high → low ≤ (lcg_randint g low high).1 < high.
Proof.
  intros Hlt. unfold lcg_randint. cbn [fst].
  pose proof (N.mod_lt g (N.of_nat (high - low))) as Hm.
  remember (g mod N.of_nat (high - low))%N as m. lia.
Qed.

#[export] Instance lcg_random_state : RandomState N := {|
  rs_seed := N.of_nat;
  rs_shuffle := @lcg_shuffle;
  rs_randint := lcg_randint;
  rs_shuffle_perm := λ A g l, lcg_shuffle_go_perm (length l) g l;
  rs_randint_range := lcg_randint_range;
|}.

(** Three decimal digits. *)
Definition digits3 (i : nat) : str :=
  [N.of_nat (48 + (i / 100) `mod` 10); N.of_nat (48 + (i / 10) `mod` 10);
   N.of_nat (48 + i `mod` 10)].

(** A corpus of [n] samples; sample [i] is spoken by speaker
    [i mod speakers]. *)
Definition corpus (n speakers : nat) : list sample :=
  (λ i, [u "wavs/" ++ digits3 i ++ u ".wav"; u "text " ++ digits3 i;
         u "spk" ++ digits3 (i `mod` speakers)]) <$> seq 0 n.

(** The value a run returned, or [d] when it raised or ran out of fuel. *)
Definition returned {A} (d : A) (o : outcome A) : A :=
  match o with
  | Ret a => a
  | _ => d
  end.

(** A store whose only object is a two-speaker corpus of 100 samples, and
    a call of [split_dataset] on that object. *)
Definition demo_world : world N :=
  World {[1%positive := corpus 100 2]} 7%N.

Definition demo_run : outcome (loc * loc) * world N :=
  split_dataset_obj 5 1%positive demo_world.

Definition demo_run_eval : loc := (returned (1%positive, 1%positive) demo_run.1).1.
Definition demo_run_train : loc := (returned (1%positive, 1%positive) demo_run.1).2.

(** ** Vocabulary of the properties *)

(** The speaker ids of a list of samples, as a set. *)
Definition speaker_set (l : list sample) : gset str :=
  list_to_set (omap last l).

(** How many samples of [l] are spoken by [s]. *)
Definition speaker_count (s : str) (l : list sample) : nat :=
  length (filter (λ it, last it = Some s) l).

(** The samples the evaluation split can take without emptying a speaker:
    the sum over the speakers of their count minus one. *)
Definition headroom (l : list sample) : nat :=
  sum_list ((λ s, speaker_count s l - 1) <$> elements (speaker_set l)).

(** The counter agrees with the pool. *)
Definition counter_ok (st : loop_state) : Prop :=
  ∀ s, counter_get (speaker_counter st) s = speaker_count s (items st).

(** The state after lines 33-35. *)
Definition accepted (st : loop_state) (item_idx : nat) (item : sample)
    (spk : str) : loop_state :=
  {| items := delete item_idx (items st);
     items_eval := items_eval st ++ [item];
     speaker_counter :=
       <[spk := counter_get (speaker_counter st) spk - 1]> (speaker_counter st) |}.

(** The loop on objects does to the store what the loop on contents does
    to its state: the same outcome and random state, the two lists at [l]
    and [le], every other object untouched. *)
Definition loop_sim {G} (l le : loc) (h : gmap loc (list sample))
    (r : outcome loop_state * G) (r' : outcome unit * world G) : Prop :=
  rng r'.2 = r.2
  ∧ (∀ l', l' ≠ l → l' ≠ le → heap r'.2 !! l' = h !! l')
  ∧ match r.1, r'.1 with
    | Ret st, Ret _ =>
      heap r'.2 !! l = Some (items st) ∧ heap r'.2 !! le = Some (items_eval st)
    | Raise e, Raise e' => e = e'
    | OutOfFuel, OutOfFuel => True
    | _, _ => False
    end.

(** The training samples a corpus contributes: what its formatter
    returned, or what [split_dataset] leaves of it when the evaluation
    split is cut from the corpus. *)
Definition train_contribution `{RandomState G} (fuel : nat) (eval_split : bool)
    (d : dataset) (raw : list sample) : outcome (list sample) :=
  if eval_split && negb (truthy (meta_file_val d)) then
    obind (split_dataset fuel raw (rs_seed 0)).1 (λ r, Ret r.2)
  else Ret raw.

(** A corpus descriptor with its alignment-mask manifest taken out. *)
Definition without_attn_mask (d : dataset) : dataset :=
  Dataset (name d) (path d) (meta_file_train d) (meta_file_val d) [].

(** The sample [ins] with the attention file the mapping gives for its key
    [ins[1]] as a trailing field. *)
Definition with_attn (meta_data : gmap str str) (ins : sample) : sample :=
  ins ++ [py_strip (default [] (ins !! 1 ≫= λ key, meta_data !! key))].

Definition with_attn_all (meta_data : gmap str str) (l : list sample)
    : list sample :=
  with_attn meta_data <$> l.

(** The key field of [ins] is in the mapping. *)
Definition key_present (meta_data : gmap str str) (ins : sample) : Prop :=
  ∃ key, ins !! 1 = Some key ∧ is_Some (meta_data !! key).

(** The key field of [ins] is not in the mapping. *)
Definition key_absent (meta_data : gmap str str) (ins : sample) : Prop :=
  ∃ key, ins !! 1 = Some key ∧ meta_data !! key = None.

(** ** A concrete environment for the examples *)

(** The alignment manifest ["a.wav|a.attn\nb.wav|b.attn\n"]. *)
Definition ab_manifest : str :=
  u "a.wav|a.attn" ++ [10%N] ++ u "b.wav|b.attn" ++ [10%N].

(** A formatter that needs its [meta_file] argument and returns [l]. *)
Definition formatter_of (l : list sample)
    : gmap string (pyval unit) → outcome (list sample) :=
  λ args, match args !! "meta_file"%string with
          | Some (VStr _) => Ret l
          | _ => Raise TypeError
          end.

Definition ab_samples : list sample :=
  [[u "wavs/a.wav"; u "a.wav"; u "spk0"]; [u "wavs/b.wav"; u "b.wav"; u "spk1"]].

Definition c_samples : list sample :=
  [[u "wavs/c.wav"; u "c.wav"; u "spk0"]].

(** A module namespace with four formatters, a bound [formatter_args], and
    a file system that holds the manifest. *)
Definition demo_env : module_env unit :=
  {| SymbolEmbedding := λ _, Ret ();
     module_attr := λ n,
       if decide (n = u "ljspeech") then Some (formatter_of (corpus 100 2))
       else if decide (n = u "vctk") then Some (formatter_of (corpus 120 3))
       else if decide (n = u "ab") then Some (formatter_of ab_samples)
       else if decide (n = u "c") then Some (formatter_of c_samples)
       else None;
     formatter_args := Some ∅;
     open_text := λ p,
       if decide (p = u "ab_attn.txt") then Some ab_manifest else None |}.

(** Two large corpora, split by [split_dataset]. *)
Definition two_corpora : config unit :=
  Config (Some [Dataset (u "LJSpeech") (u "/data/lj") (u "metadata.csv") [] [];
                Dataset (u "VCTK") (u "/data/vctk") (u "metadata.csv") [] []])
    None None.

(** One corpus with the manifest, keyed by [a.wav] and [b.wav]. *)
Definition ab_corpus : dataset :=
  Dataset (u "AB") (u "/data/ab") (u "metadata.csv") [] (u "ab_attn.txt").

(** One corpus with the manifest, keyed by [c.wav]. *)
Definition c_corpus_masked : dataset :=
  Dataset (u "C") (u "/data/c") (u "metadata.csv") [] (u "ab_attn.txt").

(** A corpus without a manifest, followed by one with. *)
Definition c_then_ab : config unit :=
  Config (Some [Dataset (u "C") (u "/data/c") (u "metadata.csv") [] [];
                ab_corpus])
    None None.

(** The same, with the corpora that share keys. *)
Definition ab_then_ab : config unit :=
  Config (Some [Dataset (u "AB") (u "/data/ab") (u "metadata.csv") [] [];
                ab_corpus])
    None None.

(** The load of [two_corpora] with an evaluation split. *)
Definition two_corpora_run
    : outcome (option (list sample) * option (list sample)) * N :=
  load_tts_samples demo_env 5 two_corpora true None 3%N.

Definition two_corpora_train : list sample :=
  default [] (returned (None, None) two_corpora_run.1).1.

Definition two_corpora_eval : option (list sample) :=
  (returned (None, None) two_corpora_run.1).2.

(** What [load_attention_mask_meta_data] reads from the manifest. *)
Definition ab_pairs : list (str * str) :=
  [(u "a.wav", u "a.attn" ++ [10%N]); (u "b.wav", u "b.attn" ++ [10%N])].

(** ** Data for the further examples *)

(** A corpus of 101 samples and 100 speakers: one speaker has two samples,
    the others one. *)
Definition sparse_run : outcome (list sample * list sample) * N :=
  split_dataset 400 (corpus 101 100) 0%N.

Definition sparse_eval : list sample := (returned ([], []) sparse_run.1).1.
Definition sparse_train : list sample := (returned ([], []) sparse_run.1).2.

(** A store whose only object is a corpus too small to split. *)
Definition small_world : world N :=
  World {[1%positive := corpus 3 1]} 7%N.




(** No white space at either end. *)
Definition stripped (s : str) : Prop :=
  (∀ c, head s = Some c → unicode_isspace c = false)
  ∧ (∀ c, last s = Some c → unicode_isspace c = false).




(** [demo_env] with one more attribute, whose name has capitals. *)
Definition capital_env : module_env unit :=
  {| SymbolEmbedding := SymbolEmbedding demo_env;
     module_attr := λ n,
       if decide (n = u "TTSDataset") then Some (formatter_of c_samples)
       else module_attr demo_env n;
     formatter_args := formatter_args demo_env;
     open_text := open_text demo_env |}.

(** [demo_env] without a binding for [formatter_args]. *)
Definition unbound_env : module_env unit :=
  {| SymbolEmbedding := SymbolEmbedding demo_env;
     module_attr := module_attr demo_env;
     formatter_args := None;
     open_text := open_text demo_env |}.




(** One large corpus, split by [split_dataset]. *)
Definition lj_only : config unit :=
  Config (Some [Dataset (u "LJSpeech") (u "/data/lj") (u "metadata.csv") [] []])
    None None.

Definition lj_only_run
    : outcome (option (list sample) * option (list sample)) * N :=
  load_tts_samples demo_env 5 lj_only true None 3%N.

Definition lj_only_train : list sample :=
  default [] (returned (None, None) lj_only_run.1).1.

Definition lj_only_eval : list sample :=
  default [] (returned (None, None) lj_only_run.1).2.

(** ** Vocabulary and examples for the character census *)

(** The texts the census reads, [item[0]] of every sample, and the
    characters that occur in them. *)
Definition texts_of (data_samples : list sample) : list str :=
  omap (λ item : sample, item !! 0) data_samples.

Definition text_chars (data_samples : list sample) : gset char :=
  list_to_set (concat (texts_of data_samples)).

Definition occurs_in (c : char) (data_samples : list sample) : Prop :=
  ∃ item text, item ∈ data_samples ∧ item !! 0 = Some text ∧ c ∈ text.

Definition latin1 (data_samples : list sample) : Prop :=
  Forall (Forall (λ c, (c < 256)%N)) (texts_of data_samples).

(** Samples for the census examples, with the text first. *)
Definition greeting : list sample :=
  [[u "Hello"; u "spk0"]; [u "WORLD"]; [[201%N; 233%N]]].

Definition greeting_run : outcome (gset str * option census) :=
  find_unique_chars greeting true.

Definition greeting_chars : gset str := (returned (∅, None) greeting_run).1.

Definition greeting_report : census :=
  default (Census 0 [] [] []) (returned (∅, None) greeting_run).2.

Definition farewell : list sample := [[u "Bye"]; [u "bye"; u "spk1"]].

Definition farewell_chars : gset str :=
  (returned (∅, None) (find_unique_chars farewell true)).1.

(** The report of a verbose census over the character set [chars]. *)
Definition census_of (chars : gset char) : census :=
  {| number_of_unique_characters := size chars;
     unique_characters := merge_sort N.le (elements chars);
     unique_lower_characters :=
       merge_sort N.le
         (elements (filter (λ c, Is_true (unicode_islower c)) chars));
     unique_all_forced_to_lower_characters :=
       concat (merge_sort (λ s t, Is_true (str_leb s t))
                 (elements (set_map unicode_lower chars : gset str))) |}.

(** * Properties *)

(** ** Running the monad *)

Ltac munfold :=
  unfold bind, ret, raise, diverge, lift, py_assert, seed, shuffle, randint in *.

Lemma omapM_Ret_Forall2 {A B} (f : A → outcome B) (l : list A) (r : list B) :
  omapM f l = Ret r ↔ Forall2 (λ x y, f x = Ret y) l r.
Proof.
  revert r. induction l as [|x l IH]; intros r; simpl.
  - split; [intros [= <-]; constructor | by inversion 1].
  - destruct (f x) as [y| |] eqn:Hfx; simpl.
    + destruct (omapM f l) as [ys| |] eqn:Hl; simpl.
      * split.
        -- intros [= <-]. constructor; [done|]. by apply IH.
        -- inversion 1 as [|? y' ? ys' Hy Hys]; subst.
           apply IH in Hys. congruence.
      * split; [done|]. inversion 1 as [|? y' ? ys' Hy Hys]; subst.
        by apply IH in Hys.
      * split; [done|]. inversion 1 as [|? y' ? ys' Hy Hys]; subst.
        by apply IH in Hys.
    + split; [done|]. inversion 1; congruence.
    + split; [done|]. inversion 1; congruence.
Qed.

(** ** Speakers and their counts *)

Lemma item_speaker_Ret (item : sample) (s : str) :
  item_speaker item = Ret s ↔ last item = Some s.
Proof. unfold item_speaker. destruct (last item); naive_solver. Qed.

Lemma item_speaker_nonempty (item : sample) :
  item ≠ [] → ∃ s, item_speaker item = Ret s ∧ last item = Some s.
Proof.
  intros Hne. apply last_is_Some in Hne as [s Hs].
  exists s. by rewrite item_speaker_Ret.
Qed.

Lemma speakers_of_Ret (l : list sample) (spk : list str) :
  speakers_of l = Ret spk ↔ Forall2 (λ it s, last it = Some s) l spk.
Proof.
  unfold speakers_of. rewrite omapM_Ret_Forall2.
  split; intros Hl; eapply Forall2_impl; try exact Hl;
    intros it s; by rewrite item_speaker_Ret.
Qed.

Lemma speakers_of_omap (l : list sample) (spk : list str) :
  speakers_of l = Ret spk → spk = omap last l ∧ Forall (λ it, it ≠ []) l.
Proof.
  rewrite speakers_of_Ret. induction 1 as [|it s l spk Hit _ [IH1 IH2]].
  - done.
  - simpl. rewrite Hit. simpl. split; [by f_equal|].
    constructor; [|done]. intros ->. done.
Qed.

Lemma speakers_of_nonempty (l : list sample) :
  Forall (λ it, it ≠ []) l → speakers_of l = Ret (omap last l).
Proof.
  intros Hl. apply speakers_of_Ret.
  induction Hl as [|it l Hit _ IH]; simpl; [constructor|].
  apply last_is_Some in Hit as [s Hs]. rewrite Hs. simpl. by constructor.
Qed.

Lemma speaker_count_cons (s : str) (it : sample) (l : list sample) :
  speaker_count s (it :: l) =
    (if decide (last it = Some s) then 1 else 0) + speaker_count s l.
Proof.
  unfold speaker_count. rewrite filter_cons. by case_decide.
Qed.

Lemma speaker_count_perm (s : str) (l1 l2 : list sample) :
  l1 ≡ₚ l2 → speaker_count s l1 = speaker_count s l2.
Proof. unfold speaker_count. by intros ->. Qed.

Lemma speaker_count_delete (s : str) (l : list sample) (i : nat) (it : sample) :
  l !! i = Some it →
  speaker_count s l =
    (if decide (last it = Some s) then 1 else 0) + speaker_count s (delete i l).
Proof.
  intros Hi. rewrite <- speaker_count_cons.
  apply speaker_count_perm. by apply delete_Permutation.
Qed.

Lemma speaker_count_pos (s : str) (l : list sample) :
  1 ≤ speaker_count s l ↔ s ∈ speaker_set l.
Proof.
  unfold speaker_set. rewrite elem_of_list_to_set, list_elem_of_omap.
  induction l as [|it l IH].
  - split; [cbn; lia|]. intros (x & Hx & _). by apply elem_of_nil in Hx.
  - rewrite speaker_count_cons. split.
    + case_decide as Hit.
      * intros _. exists it. split; [left|done].
      * intros Hc. apply IH in Hc as (x & Hx & Hl). exists x. split; [by right|done].
    + intros (x & Hx & Hl). apply elem_of_cons in Hx as [->|Hx].
      * rewrite decide_True by done. lia.
      * assert (1 ≤ speaker_count s l) by (apply IH; eauto). lia.
Qed.

Lemma speaker_set_perm (l1 l2 : list sample) :
  l1 ≡ₚ l2 → speaker_set l1 = speaker_set l2.
Proof.
  intros Hp. apply set_eq. intros s.
  by rewrite <- !speaker_count_pos, (speaker_count_perm s l1 l2).
Qed.

Lemma counter_get_insert (m : gmap str nat) (k s : str) (v : nat) :
  counter_get (<[k := v]> m) s = if decide (k = s) then v else counter_get m s.
Proof.
  unfold counter_get. case_decide as Hk.
  - subst. by rewrite lookup_insert_eq.
  - by rewrite lookup_insert_ne.
Qed.

Lemma Counter_foldl (l : list str) (m : gmap str nat) (s : str) :
  counter_get (foldl (λ m s, <[s := S (default 0 (m !! s))]> m) m l) s =
    counter_get m s + length (filter (λ x, x = s) l).
Proof.
  revert m. induction l as [|x l IH]; intros m; simpl; [lia|].
  rewrite IH, filter_cons. unfold counter_get.
  case_decide as Hx.
  - subst x. rewrite lookup_insert_eq. simpl. lia.
  - rewrite lookup_insert_ne by done. lia.
Qed.

Lemma Counter_spec (l : list sample) (spk : list str) (s : str) :
  speakers_of l = Ret spk →
  counter_get (Counter spk) s = speaker_count s l.
Proof.
  intros Hl. unfold Counter. rewrite Counter_foldl.
  unfold counter_get. rewrite lookup_empty. simpl.
  apply speakers_of_Ret in Hl. unfold speaker_count.
  induction Hl as [|it x l spk Hit _ IH]; [done|].
  rewrite !filter_cons, Hit.
  destruct (decide (x = s)), (decide (Some x = Some s)); simpl; congruence.
Qed.

Lemma sum_list_fmap_add {A} (f g : A → nat) (l : list A) :
  sum_list ((λ x, f x + g x) <$> l) = sum_list (f <$> l) + sum_list (g <$> l).
Proof. induction l as [|x l IH]; csimpl; lia. Qed.

Lemma sum_list_fmap_pred {A} (f : A → nat) (l : list A) :
  (∀ x, x ∈ l → 1 ≤ f x) →
  sum_list ((λ x, f x - 1) <$> l) + length l = sum_list (f <$> l).
Proof.
  induction l as [|x l IH]; intros Hf; csimpl; [done|].
  assert (1 ≤ f x) by (apply Hf; left).
  assert (sum_list ((λ x, f x - 1) <$> l) + length l = sum_list (f <$> l))
    by (apply IH; intros y Hy; apply Hf; by right).
  lia.
Qed.

Lemma sum_list_indicator (ks : list str) (o : option str) (s : str) :
  NoDup ks → o = Some s → s ∈ ks →
  sum_list ((λ k, if decide (o = Some k) then 1 else 0) <$> ks) = 1.
Proof.
  intros Hnd ->. induction Hnd as [|k ks Hk Hnd IH]; intros Hs; csimpl.
  - by apply elem_of_nil in Hs.
  - case_decide as Heq.
    + injection Heq as ->.
      assert (sum_list ((λ k0, if decide (Some k = Some k0) then 1 else 0) <$> ks) = 0)
        as ->; [|done].
      clear IH Hs Hnd. induction ks as [|k' ks IH]; csimpl; [done|].
      rewrite decide_False, IH; [done| |].
      * intros Hk'. apply Hk. by right.
      * intros [= ->]. apply Hk. by left.
    + apply elem_of_cons in Hs as [->|Hs]; [done|]. by rewrite IH.
Qed.

Lemma sum_speaker_count (ks : list str) (l : list sample) :
  NoDup ks →
  (∀ it, it ∈ l → ∃ s, last it = Some s ∧ s ∈ ks) →
  sum_list ((λ k, speaker_count k l) <$> ks) = length l.
Proof.
  intros Hnd. induction l as [|it l IH]; intros Hl.
  - clear Hl Hnd. induction ks as [|k ks IHk]; [done|]. csimpl. by rewrite IHk.
  - erewrite (list_fmap_ext _ (λ k, (if decide (last it = Some k) then 1 else 0)
                                       + speaker_count k l)).
    2:{ intros i k _. apply speaker_count_cons. }
    rewrite sum_list_fmap_add, IH.
    2:{ intros it' Hit'. apply Hl. by right. }
    destruct (Hl it) as (s & Hs & Hks); [by left|].
    rewrite (sum_list_indicator ks (last it) s); done.
Qed.

(** The headroom is what is left of the corpus once every speaker has set
    one sample aside. *)
Lemma headroom_spec (l : list sample) :
  Forall (λ it, it ≠ []) l →
  headroom l + size (speaker_set l) = length l.
Proof.
  intros Hl. unfold headroom, size, set_size. simpl.
  rewrite sum_list_fmap_pred.
  - apply sum_speaker_count; [apply NoDup_elements|].
    intros it Hit. rewrite Forall_forall in Hl.
    pose proof (Hl it Hit) as Hne. apply last_is_Some in Hne as [s Hs].
    exists s. split; [done|].
    apply elem_of_elements. unfold speaker_set.
    rewrite elem_of_list_to_set, list_elem_of_omap. eauto.
  - intros s Hs. apply elem_of_elements in Hs. by apply speaker_count_pos.
Qed.

Lemma speaker_set_size_le (l : list sample) :
  Forall (λ it, it ≠ []) l → size (speaker_set l) ≤ length l.
Proof. intros Hl. pose proof (headroom_spec l Hl). lia. Qed.

(** ** The rejection-sampling loop *)

Section LoopFacts.
Context `{RandomState G}.

Lemma sample_eval_unfold (fuel k : nat) (st : loop_state) (g : G) :
  sample_eval (S fuel) k st g =
    if length (items_eval st) <? k then
      if 0 <? length (items st) then
        match items st !! (rs_randint g 0 (length (items st))).1 with
        | None => (Raise IndexError, (rs_randint g 0 (length (items st))).2)
        | Some item =>
          match item_speaker item with
          | Ret spk =>
            if 1 <? counter_get (speaker_counter st) spk
            then sample_eval fuel k
                   (accepted st (rs_randint g 0 (length (items st))).1 item spk)
                   (rs_randint g 0 (length (items st))).2
            else sample_eval fuel k st (rs_randint g 0 (length (items st))).2
          | Raise e => (Raise e, (rs_randint g 0 (length (items st))).2)
          | OutOfFuel => (OutOfFuel, (rs_randint g 0 (length (items st))).2)
          end
        end
      else (Raise ValueError, g)
    else (Ret st, g).
Proof.
  simpl. destruct (_ <? k); [|done]. munfold.
  destruct (0 <? _); [|done].
  destruct (rs_randint _ _ _) as [idx g']; simpl.
  destruct (items st !! idx) as [item|]; [|done].
  destruct (item_speaker item) as [spk| |]; [|done..].
  by destruct (1 <? _).
Qed.

Lemma accepted_counter_ok (st : loop_state) (idx : nat) (item : sample) (spk : str) :
  counter_ok st → items st !! idx = Some item → last item = Some spk →
  counter_ok (accepted st idx item spk).
Proof.
  intros Hok Hidx Hspk s. unfold accepted; simpl.
  pose proof (speaker_count_delete s _ _ _ Hidx) as Hd.
  rewrite counter_get_insert.
  destruct (decide (spk = s)) as [->|Hne].
  - rewrite Hok. rewrite decide_True in Hd by done. lia.
  - rewrite Hok. rewrite decide_False in Hd by congruence. lia.
Qed.

(** What holds when the loop exits: the counter still agrees with the
    pool, nothing was lost or duplicated, every speaker of the pool is
    still in it, and the evaluation list has the target size. *)
Lemma sample_eval_Ret (fuel k : nat) (st st' : loop_state) (g g' : G) :
  counter_ok st →
  sample_eval fuel k st g = (Ret st', g') →
  counter_ok st'
  ∧ items_eval st' ++ items st' ≡ₚ items_eval st ++ items st
  ∧ (∀ s, 1 ≤ speaker_count s (items st) → 1 ≤ speaker_count s (items st'))
  ∧ length (items_eval st') = length (items_eval st) `max` k
  ∧ items st' `sublist_of` items st.
Proof.
  revert st g. induction fuel as [|fuel IH]; intros st g Hok.
  - simpl. destruct (_ <? k) eqn:Hlt; [done|].
    intros [= <- <-]. apply Nat.ltb_ge in Hlt. repeat split; [done..|lia|done].
  - rewrite sample_eval_unfold.
    destruct (_ <? k) eqn:Hlt.
    2:{ intros [= <- <-]. apply Nat.ltb_ge in Hlt.
        repeat split; [done..|lia|done]. }
    apply Nat.ltb_lt in Hlt.
    destruct (0 <? _); [|done].
    destruct (rs_randint _ _ _) as [idx g1]; simpl.
    destruct (items st !! idx) as [item|] eqn:Hidx; [|done].
    destruct (item_speaker item) as [spk| |] eqn:Hspk; [|done..].
    apply item_speaker_Ret in Hspk.
    destruct (1 <? _) eqn:Hc; [|by apply IH].
    apply Nat.ltb_lt in Hc. intros Hrun.
    apply IH in Hrun as (Hok' & Hperm & Hkeep & Hlen & Hsub);
      [|by apply accepted_counter_ok].
    simpl in *. split; [done|]. split; [|split; [|split]].
    + rewrite Hperm, <- app_assoc. simpl.
      apply Permutation_app_head. symmetry. by apply delete_Permutation.
    + intros s Hs. apply Hkeep.
      pose proof (speaker_count_delete s _ _ _ Hidx) as Hd.
      case_decide as Heq; [|lia].
      assert (spk = s) as -> by congruence. rewrite Hok in Hc. lia.
    + rewrite Hlen, length_app. simpl. lia.
    + etrans; [exact Hsub|]. apply sublist_delete.
Qed.

(** A target above the headroom is never met: the loop is still running
    after any number of passes. *)
Lemma sample_eval_starved (fuel k : nat) (st : loop_state) (g : G) :
  counter_ok st →
  Forall (λ it, it ≠ []) (items st) →
  items st ≠ [] →
  length (items_eval st) + length (items st) < k + size (speaker_set (items st)) →
  (sample_eval fuel k st g).1 = OutOfFuel.
Proof.
  revert st g. induction fuel as [|fuel IH]; intros st g Hok Hne Hpool Hlt.
  - pose proof (speaker_set_size_le _ Hne).
    simpl. assert ((length (items_eval st) <? k) = true) as ->; [|done].
    apply Nat.ltb_lt. lia.
  - pose proof (speaker_set_size_le _ Hne).
    rewrite sample_eval_unfold.
    assert ((length (items_eval st) <? k) = true) as ->
      by (apply Nat.ltb_lt; lia).
    assert (0 < length (items st)) as Hpos by (destruct (items st); [done|simpl; lia]).
    assert ((0 <? length (items st)) = true) as -> by by apply Nat.ltb_lt.
    pose proof (rs_randint_range g 0 _ Hpos) as [_ Hidx].
    destruct (rs_randint _ _ _) as [idx g1]; simpl in *.
    apply lookup_lt_is_Some_2 in Hidx as [item Hidx]. rewrite Hidx.
    assert (item ≠ []) as Hitem.
    { rewrite Forall_forall in Hne. apply Hne. by eapply list_elem_of_lookup_2. }
    apply item_speaker_nonempty in Hitem as (spk & -> & Hspk).
    destruct (1 <? _) eqn:Hc; [|by apply IH].
    apply Nat.ltb_lt in Hc. rewrite Hok in Hc.
    pose proof (speaker_count_delete spk _ _ _ Hidx) as Hd.
    rewrite decide_True in Hd by done.
    assert (speaker_set (delete idx (items st)) = speaker_set (items st)) as Hset.
    { apply set_eq. intros s. rewrite <- !speaker_count_pos.
      pose proof (speaker_count_delete s _ _ _ Hidx) as Hds.
      case_decide as Heq; [|lia].
      assert (spk = s) as <- by congruence. lia. }
    apply IH.
    + by apply accepted_counter_ok.
    + simpl. by apply Forall_delete.
    + simpl. intros Hnil. rewrite Hnil in Hd. cbn in Hd. lia.
    + simpl. rewrite Hset, length_app, length_delete by eauto. simpl. lia.
Qed.

(** More fuel does not change a run that ended. *)
Lemma sample_eval_fuel_mono (fuel fuel' k : nat) (st : loop_state) (g : G) :
  fuel ≤ fuel' →
  (sample_eval fuel k st g).1 ≠ OutOfFuel →
  sample_eval fuel' k st g = sample_eval fuel k st g.
Proof.
  revert fuel' st g. induction fuel as [|fuel IH]; intros fuel' st g Hle.
  - simpl. destruct (_ <? k) eqn:Hlt; [done|]. intros _.
    destruct fuel'; simpl; by rewrite Hlt.
  - destruct fuel' as [|fuel']; [lia|].
    rewrite !sample_eval_unfold.
    destruct (_ <? k); [|done].
    destruct (0 <? _); [|done].
    destruct (items st !! _) as [item|]; [|done].
    destruct (item_speaker item) as [spk| |]; [|done..].
    destruct (1 <? _); apply IH; lia.
Qed.
End LoopFacts.

(** ** [split_dataset] *)

Section SplitterFacts.
Context `{RandomState G}.

Lemma split_dataset_unfold (fuel : nat) (its : list sample) (g : G) :
  split_dataset fuel its g =
    match speakers_of its with
    | Ret speakers =>
      if 0 <? eval_split_size_of its then
        let sh := rs_shuffle (rs_seed 0) its in
        if is_multi_speaker speakers then
          match speakers_of sh.1 with
          | Ret speakers' =>
            match sample_eval fuel (eval_split_size_of its)
                    (LoopState sh.1 [] (Counter speakers')) sh.2 with
            | (Ret st, g') => (Ret (items_eval st, items st), g')
            | (Raise e, g') => (Raise e, g')
            | (OutOfFuel, g') => (OutOfFuel, g')
            end
          | Raise e => (Raise e, sh.2)
          | OutOfFuel => (OutOfFuel, sh.2)
          end
        else (Ret (take (eval_split_size_of its) sh.1,
                   drop (eval_split_size_of its) sh.1), sh.2)
      else (Raise AssertionError, g)
    | Raise e => (Raise e, g)
    | OutOfFuel => (OutOfFuel, g)
    end.
Proof.
  unfold split_dataset. munfold.
  destruct (speakers_of its) as [speakers| |]; [|done..].
  destruct (0 <? _); [|done]. simpl.
  destruct (rs_shuffle _ _) as [sh g1]; simpl.
  destruct (is_multi_speaker speakers); [|done].
  destruct (speakers_of sh) as [speakers'| |]; [|done..].
  destruct (sample_eval _ _ _ _) as [[[]| |] g2]; done.
Qed.

Lemma is_multi_speaker_set (l : list sample) :
  is_multi_speaker (omap last l) = true ↔ 1 < size (speaker_set l).
Proof. unfold is_multi_speaker, speaker_set. apply Nat.ltb_lt. Qed.

Lemma single_speaker_not_multi (l : list sample) (s : str) :
  Forall (λ it, last it = Some s) l → is_multi_speaker (omap last l) = false.
Proof.
  intros Hl. apply Nat.ltb_ge.
  rewrite <- (size_singleton (C:=gset str) s). apply subseteq_size.
  intros x. rewrite elem_of_list_to_set, list_elem_of_omap, elem_of_singleton.
  intros (it & Hit & Hx). rewrite Forall_forall in Hl.
  apply Hl in Hit. congruence.
Qed.

Lemma eval_split_size_le (l : list sample) : eval_split_size_of l ≤ length l.
Proof.
  unfold eval_split_size_of.
  pose proof (Nat.Div0.div_le_upper_bound (length l) 100 (length l)). lia.
Qed.

Lemma eval_split_size_zero (l : list sample) :
  eval_split_size_of l ≤ 0 ↔ length l < 100.
Proof.
  unfold eval_split_size_of. split.
  - intros Hk. destruct (decide (length l < 100)) as [|Hge]; [done|].
    assert (1 ≤ length l / 100) by (apply Nat.div_le_lower_bound; lia). lia.
  - intros Hlt. rewrite Nat.div_small by done. lia.
Qed.

Lemma split_dataset_reseeds (fuel : nat) (g1 g2 : G) (its : list sample) :
  (split_dataset fuel its g1).1 = (split_dataset fuel its g2).1.
Proof.
  rewrite !split_dataset_unfold.
  destruct (speakers_of its) as [speakers| |]; [|done..].
  by destruct (0 <? _).
Qed.

(** More fuel does not change a call that returned or raised. *)
Lemma split_dataset_fuel_mono (fuel fuel' : nat) (g : G) (its : list sample) :
  fuel ≤ fuel' →
  (split_dataset fuel its g).1 ≠ OutOfFuel →
  split_dataset fuel' its g = split_dataset fuel its g.
Proof.
  intros Hle. rewrite !split_dataset_unfold.
  destruct (speakers_of its) as [speakers| |]; [|done..].
  destruct (0 <? _); [|done]. cbv zeta.
  destruct (is_multi_speaker speakers); [|done].
  destruct (speakers_of _) as [speakers'| |]; [|done..].
  intros Hrun. rewrite (sample_eval_fuel_mono fuel fuel'); [done|done|].
  by destruct (sample_eval fuel _ _ _) as [[st| |] g2].
Qed.

(** A returned split holds the samples of the input, each once. *)
Lemma split_dataset_Ret_perm (fuel : nat) (g g' : G) (its ev tr : list sample) :
  split_dataset fuel its g = (Ret (ev, tr), g') → ev ++ tr ≡ₚ its.
Proof.
  rewrite split_dataset_unfold.
  destruct (speakers_of its) as [speakers| |]; [|done..].
  destruct (0 <? _); [|done]. cbv zeta.
  pose proof (rs_shuffle_perm _ (rs_seed 0) its) as Hperm.
  destruct (rs_shuffle (rs_seed 0) its) as [sh g1]; cbn [fst snd] in *.
  destruct (is_multi_speaker speakers).
  - destruct (speakers_of sh) as [speakers'| |] eqn:Hspk'; [|done..].
    destruct (sample_eval _ _ _ _) as [[st| |] g2] eqn:Hloop; [|done..].
    intros [= <- <- <-].
    apply sample_eval_Ret in Hloop as (_ & Hp & _).
    + by rewrite Hp.
    + intros s. by apply Counter_spec.
  - intros [= <- <- <-]. by rewrite take_drop.
Qed.
End SplitterFacts.

Section SplitterClaims.
Context `{RandomState G}.

(** On an input that holds more than one speaker and has fewer samples
    than the target and the speakers together, [split_dataset] is still
    inside its loop whatever the fuel. *)
Lemma split_dataset_starved (fuel : nat) (g : G) (its : list sample) :
  Forall (λ it, it ≠ []) its →
  1 < size (speaker_set its) →
  0 < eval_split_size_of its →
  length its < eval_split_size_of its + size (speaker_set its) →
  (split_dataset fuel its g).1 = OutOfFuel.
Proof.
  intros Hne Hmulti Hpos Hroom. rewrite split_dataset_unfold.
  rewrite (speakers_of_nonempty _ Hne).
  assert ((0 <? eval_split_size_of its) = true) as -> by by apply Nat.ltb_lt.
  rewrite (proj2 (is_multi_speaker_set its) Hmulti). cbv zeta.
  pose proof (rs_shuffle_perm _ (rs_seed 0) its) as Hperm.
  destruct (rs_shuffle (rs_seed 0) its) as [sh g1]; cbn [fst snd] in *.
  assert (Forall (λ it, it ≠ []) sh) as Hne' by by rewrite Hperm.
  rewrite (speakers_of_nonempty _ Hne').
  pose proof (sample_eval_starved fuel (eval_split_size_of its)
                (LoopState sh [] (Counter (omap last sh))) g1) as Hrun.
  destruct (sample_eval _ _ _ _) as [o g2]. simpl in Hrun.
  rewrite Hrun; [done|..].
  - intros s. simpl. apply Counter_spec. by apply speakers_of_nonempty.
  - done.
  - intros ->. apply Permutation_nil_l in Hperm. subst its.
    change (speaker_set []) with (∅ : gset str) in Hmulti.
    rewrite size_empty in Hmulti. lia.
  - by rewrite (speaker_set_perm _ _ Hperm), (Permutation_length Hperm).
Qed.

(** C1. On a multi-speaker input on which [split_dataset] returns, a
    speaker with at least two samples in the input has at least one in the
    returned training list. *)
Theorem split_dataset_keeps_every_speaker
    (fuel : nat) (g g' : G) (its ev tr : list sample) (s : str) :
  1 < size (speaker_set its) →
  split_dataset fuel its g = (Ret (ev, tr), g') →
  2 ≤ speaker_count s its →
  1 ≤ speaker_count s tr.
Proof.
  intros Hmulti Hrun Hs. rewrite split_dataset_unfold in Hrun.
  destruct (speakers_of its) as [speakers| |] eqn:Hspk; [|done..].
  apply speakers_of_omap in Hspk as [-> Hne].
  destruct (0 <? _); [|done].
  apply is_multi_speaker_set in Hmulti. rewrite Hmulti in Hrun. cbv zeta in Hrun.
  pose proof (rs_shuffle_perm _ (rs_seed 0) its) as Hperm.
  destruct (rs_shuffle (rs_seed 0) its) as [sh g1]; cbn [fst snd] in *.
  destruct (speakers_of sh) as [speakers'| |] eqn:Hspk'; [|done..].
  destruct (sample_eval _ _ _ _) as [[st| |] g2] eqn:Hloop; [|done..].
  injection Hrun as <- <- <-.
  apply sample_eval_Ret in Hloop as (_ & _ & Hkeep & _).
  - apply Hkeep. simpl. rewrite (speaker_count_perm s _ _ Hperm). lia.
  - intros s'. simpl. by apply Counter_spec.
Qed.

(** C2. On [N] samples that share one speaker id, with [N / 100 > 0],
    [split_dataset] returns an evaluation list of [min(500, N / 100)]
    samples and a training list of the remaining [N - len(eval)], and
    together they hold exactly the samples of the input. *)
Theorem split_dataset_single_speaker
    (fuel : nat) (g : G) (its : list sample) (s : str) :
  Forall (λ it, last it = Some s) its →
  0 < length its / 100 →
  ∃ ev tr g',
    split_dataset fuel its g = (Ret (ev, tr), g')
    ∧ length ev = 500 `min` (length its / 100)
    ∧ length tr = length its - length ev
    ∧ ∀ x, x ∈ ev ∨ x ∈ tr ↔ x ∈ its.
Proof.
  intros Hs Hsize. rewrite split_dataset_unfold.
  assert (Forall (λ it, it ≠ []) its) as Hne.
  { eapply Forall_impl; [exact Hs|]. intros it Hit ->. done. }
  rewrite (speakers_of_nonempty _ Hne), (single_speaker_not_multi _ _ Hs).
  assert ((0 <? eval_split_size_of its) = true) as ->
    by (apply Nat.ltb_lt; unfold eval_split_size_of; lia).
  cbv zeta.
  pose proof (rs_shuffle_perm _ (rs_seed 0) its) as Hperm.
  pose proof (eval_split_size_le its) as Hle.
  destruct (rs_shuffle (rs_seed 0) its) as [sh g1]; cbn [fst snd] in *.
  pose proof (Permutation_length Hperm) as Hlen.
  eexists _, _, _. split; [done|].
  fold (eval_split_size_of its).
  rewrite length_take, length_drop. split; [lia|]. split; [lia|].
  intros x. rewrite <- Hperm, <- (take_drop (eval_split_size_of its) sh) at 3.
  by rewrite elem_of_app.
Qed.

(** C3, as the code has it.  On a multi-speaker input of non-empty
    samples whose target exceeds the headroom, [split_dataset] neither
    returns nor raises: the loop has no bound and is still running after
    any number of passes. *)
Theorem split_dataset_unreachable_target_never_ends
    (fuel : nat) (g : G) (its : list sample) :
  Forall (λ it, it ≠ []) its →
  1 < size (speaker_set its) →
  headroom its < 500 `min` (length its / 100) →
  (split_dataset fuel its g).1 = OutOfFuel.
Proof.
  intros Hne Hmulti Hroom. fold (eval_split_size_of its) in Hroom.
  pose proof (headroom_spec its Hne) as Hhead.
  apply split_dataset_starved; [done|done|lia|lia].
Qed.

(** C4. With an evaluation target of zero, that is with fewer than 100
    samples, [split_dataset] raises and returns no split; on non-empty
    samples the exception is the assertion of line 22, raised before the
    random state is touched. *)
Theorem split_dataset_too_small_fails
    (fuel : nat) (g : G) (its : list sample) :
  500 `min` (length its / 100) ≤ 0 →
  length its < 100
  ∧ (∃ e, split_dataset fuel its g = (Raise e, g))
  ∧ (Forall (λ it, it ≠ []) its →
     split_dataset fuel its g = (Raise AssertionError, g)).
Proof.
  intros Hk. split; [by apply eval_split_size_zero|].
  rewrite split_dataset_unfold.
  assert ((0 <? eval_split_size_of its) = false) as Hz
    by (apply Nat.ltb_ge; exact Hk).
  split.
  - destruct (speakers_of its) as [speakers| |] eqn:Hspk.
    + rewrite Hz. eauto.
    + eauto.
    + unfold speakers_of in Hspk. exfalso. clear -Hspk.
      induction its as [|it l IH]; [done|]. simpl in Hspk.
      unfold item_speaker in Hspk at 1. destruct (last it); [|done].
      simpl in Hspk. destruct (omapM item_speaker l); [done|done|by apply IH].
  - intros Hne. by rewrite (speakers_of_nonempty _ Hne), Hz.
Qed.

(** C5. The outcome of [split_dataset] does not depend on the random
    state it is entered with: line 23 reseeds the generator.  Two calls on
    equal lists with the same fuel have the same outcome, and two calls that
    ended, with whatever fuel, returned the same partition or raised the
    same exception. *)
Theorem split_dataset_deterministic
    (fuel1 fuel2 : nat) (g1 g2 : G) (its : list sample) :
  (split_dataset fuel1 its g1).1 = (split_dataset fuel1 its g2).1
  ∧ ((split_dataset fuel1 its g1).1 ≠ OutOfFuel →
     (split_dataset fuel2 its g2).1 ≠ OutOfFuel →
     (split_dataset fuel1 its g1).1 = (split_dataset fuel2 its g2).1).
Proof.
  split; [apply split_dataset_reseeds|]. intros Hend1 Hend2.
  rewrite <- (split_dataset_fuel_mono fuel1 (fuel1 `max` fuel2) g1) by (done || lia).
  rewrite <- (split_dataset_fuel_mono fuel2 (fuel1 `max` fuel2) g2) by (done || lia).
  apply split_dataset_reseeds.
Qed.
End SplitterClaims.

(** ** The splitter on concrete corpora *)

Ltac by_compute :=
  match goal with
  | |- ?P => apply (bool_decide_eq_true_1 P); vm_compute; reflexivity
  end.

Lemma split_dataset_keeps_every_speaker_witness :
  1 < size (speaker_set (corpus 100 2))
  ∧ 2 ≤ speaker_count (u "spk000") (corpus 100 2)
  ∧ 1 ≤ speaker_count (u "spk000")
          (returned ([], []) (split_dataset 5 (corpus 100 2) 0%N).1).2.
Proof.
  assert (1 < size (speaker_set (corpus 100 2))) as Hmulti by by_compute.
  assert (2 ≤ speaker_count (u "spk000") (corpus 100 2)) as Hcount by by_compute.
  split; [exact Hmulti|]. split; [exact Hcount|].
  apply (split_dataset_keeps_every_speaker 5 0%N
           (split_dataset 5 (corpus 100 2) 0%N).2
           (corpus 100 2)
           (returned ([], []) (split_dataset 5 (corpus 100 2) 0%N).1).1
           _ (u "spk000") Hmulti); [|exact Hcount].
  vm_compute. reflexivity.
Defined.

Lemma split_dataset_single_speaker_witness :
  Forall (λ it, last it = Some (u "spk000")) (corpus 100 1)
  ∧ 0 < length (corpus 100 1) / 100
  ∧ ∃ ev tr g',
      split_dataset 0 (corpus 100 1) 7%N = (Ret (ev, tr), g')
      ∧ length ev = 500 `min` (length (corpus 100 1) / 100)
      ∧ length tr = length (corpus 100 1) - length ev
      ∧ ∀ x, x ∈ ev ∨ x ∈ tr ↔ x ∈ corpus 100 1.
Proof.
  assert (Forall (λ it, last it = Some (u "spk000")) (corpus 100 1)) as Hs
    by by_compute.
  assert (0 < length (corpus 100 1) / 100) as Hsize by by_compute.
  split; [exact Hs|]. split; [exact Hsize|].
  exact (split_dataset_single_speaker 0 7%N (corpus 100 1) (u "spk000") Hs Hsize).
Defined.

(** C3, as the spec has it, fails.  On 100 samples of 100 speakers the
    target is 1 and the headroom 0, and [split_dataset] raises nothing,
    after no number of passes. *)
Lemma split_dataset_no_safety_bound :
  1 < size (speaker_set (corpus 100 100))
  ∧ headroom (corpus 100 100) < 500 `min` (length (corpus 100 100) / 100)
  ∧ ¬ ∃ fuel e, (split_dataset fuel (corpus 100 100) 0%N).1 = Raise e.
Proof.
  split; [by_compute|]. split; [by_compute|].
  intros (fuel & e & Hrun).
  rewrite split_dataset_starved in Hrun; [done|by_compute..].
Qed.

Lemma split_dataset_unreachable_target_never_ends_witness :
  Forall (λ it, it ≠ []) (corpus 200 199)
  ∧ 1 < size (speaker_set (corpus 200 199))
  ∧ headroom (corpus 200 199) < 500 `min` (length (corpus 200 199) / 100)
  ∧ (split_dataset 1000 (corpus 200 199) 0%N).1 = OutOfFuel.
Proof.
  assert (Forall (λ it, it ≠ []) (corpus 200 199)) as Hne by by_compute.
  assert (1 < size (speaker_set (corpus 200 199))) as Hmulti by by_compute.
  assert (headroom (corpus 200 199)
          < 500 `min` (length (corpus 200 199) / 100)) as Hroom by by_compute.
  split; [exact Hne|]. split; [exact Hmulti|]. split; [exact Hroom|].
  exact (split_dataset_unreachable_target_never_ends 1000 0%N (corpus 200 199)
           Hne Hmulti Hroom).
Defined.

Lemma split_dataset_too_small_fails_witness :
  500 `min` (length (corpus 3 1) / 100) ≤ 0
  ∧ Forall (λ it, it ≠ []) (corpus 3 1)
  ∧ length (corpus 3 1) < 100
  ∧ split_dataset 5 (corpus 3 1) 7%N = (Raise AssertionError, 7%N).
Proof.
  assert (500 `min` (length (corpus 3 1) / 100) ≤ 0) as Hk by by_compute.
  assert (Forall (λ it, it ≠ []) (corpus 3 1)) as Hne by by_compute.
  split; [exact Hk|]. split; [exact Hne|].
  destruct (split_dataset_too_small_fails 5 7%N (corpus 3 1) Hk)
    as (Hlen & _ & Hassert).
  split; [exact Hlen|]. exact (Hassert Hne).
Defined.

Lemma split_dataset_deterministic_witness :
  (split_dataset 5 (corpus 100 2) 0%N).1 ≠ OutOfFuel
  ∧ (split_dataset 9 (corpus 100 2) 12345%N).1 ≠ OutOfFuel
  ∧ (split_dataset 5 (corpus 100 2) 0%N).1
    = (split_dataset 9 (corpus 100 2) 12345%N).1.
Proof.
  assert ((split_dataset 5 (corpus 100 2) 0%N).1 ≠ OutOfFuel) as Hend1
    by by_compute.
  assert ((split_dataset 9 (corpus 100 2) 12345%N).1 ≠ OutOfFuel) as Hend2
    by by_compute.
  split; [exact Hend1|]. split; [exact Hend2|].
  exact (proj2 (split_dataset_deterministic 5 9 0%N 12345%N (corpus 100 2))
           Hend1 Hend2).
Defined.

(** ** [split_dataset] on list objects *)

Section ObjectFacts.
Context `{RandomState G}.

Ltac hunfold :=
  unfold bind, ret, raise, diverge, lift, py_assert, with_rng, load, store,
    alloc, seed, shuffle, randint in *.

Lemma sample_eval_obj_unfold (fuel k : nat) (l le : loc) (c : gmap str nat)
    (h : gmap loc (list sample)) (g : G) (its ev : list sample) :
  l ≠ le → h !! l = Some its → h !! le = Some ev →
  sample_eval_obj (S fuel) k l le c (World h g) =
    if length ev <? k then
      if 0 <? length its then
        match its !! (rs_randint g 0 (length its)).1 with
        | None => (Raise IndexError, World h (rs_randint g 0 (length its)).2)
        | Some item =>
          match item_speaker item with
          | Ret spk =>
            if 1 <? counter_get c spk
            then sample_eval_obj fuel k l le
                   (<[spk := counter_get c spk - 1]> c)
                   (World (<[l := delete (rs_randint g 0 (length its)).1 its]>
                             (<[le := ev ++ [item]]> h))
                      (rs_randint g 0 (length its)).2)
            else sample_eval_obj fuel k l le c
                   (World h (rs_randint g 0 (length its)).2)
          | Raise e => (Raise e, World h (rs_randint g 0 (length its)).2)
          | OutOfFuel => (OutOfFuel, World h (rs_randint g 0 (length its)).2)
          end
        end
      else (Raise ValueError, World h g)
    else (Ret (), World h g).
Proof.
  intros Hne Hl Hle. simpl. hunfold. cbn [heap rng]. rewrite Hle. cbn [default from_option id].
  destruct (_ <? k); [|done].
  cbn [heap rng]. rewrite Hl. cbn [default from_option id].
  destruct (0 <? _); [|done].
  destruct (rs_randint _ _ _) as [idx g']; cbn [fst snd heap rng].
  destruct (its !! idx) as [item|]; [|done].
  destruct (item_speaker item) as [spk| |]; [|done..].
  destruct (1 <? _); [|done].
  cbn [heap rng]. rewrite Hle. cbn [default from_option id].
  rewrite lookup_insert_ne, Hl by done. done.
Qed.

Lemma sample_eval_obj_sim (fuel k : nat) (l le : loc) (c : gmap str nat)
    (h : gmap loc (list sample)) (g : G) (its ev : list sample) :
  l ≠ le → h !! l = Some its → h !! le = Some ev →
  loop_sim l le h
    (sample_eval fuel k (LoopState its ev c) g)
    (sample_eval_obj fuel k l le c (World h g)).
Proof.
  intros Hne. revert c h g its ev.
  induction fuel as [|fuel IH]; intros c h g its ev Hl Hle.
  - simpl. hunfold. cbn [heap rng]. rewrite Hle. cbn [default from_option id].
    destruct (_ <? k); by repeat split.
  - rewrite sample_eval_unfold, (sample_eval_obj_unfold _ _ _ _ _ _ _ its ev)
      by done.
    cbn [items items_eval speaker_counter].
    destruct (_ <? k); [|by repeat split].
    destruct (0 <? _); [|by repeat split].
    destruct (rs_randint _ _ _) as [idx g']; cbn [fst snd].
    destruct (its !! idx) as [item|]; [|by repeat split].
    destruct (item_speaker item) as [spk| |]; [|by repeat split..].
    destruct (1 <? _); [|by apply IH].
    unfold accepted. cbn [items items_eval speaker_counter].
    destruct (IH (<[spk := counter_get c spk - 1]> c)
                (<[l := delete idx its]> (<[le := ev ++ [item]]> h)) g'
                (delete idx its) (ev ++ [item])) as (Hrng & Hframe & Hres).
    + by rewrite lookup_insert_eq.
    + by rewrite lookup_insert_ne, lookup_insert_eq.
    + split; [done|]. split; [|done].
      intros l' Hl1 Hl2. by rewrite Hframe, !lookup_insert_ne.
Qed.

Lemma split_dataset_obj_unfold (fuel : nat) (l : loc)
    (h : gmap loc (list sample)) (g : G) (its : list sample) :
  h !! l = Some its →
  split_dataset_obj fuel l (World h g) =
    match speakers_of its with
    | Ret speakers =>
      if 0 <? eval_split_size_of its then
        let sh := rs_shuffle (rs_seed 0) its in
        let h1 := <[l := sh.1]> h in
        if is_multi_speaker speakers then
          let le := fresh (dom h1) in
          match speakers_of sh.1 with
          | Ret speakers' =>
            match sample_eval_obj fuel (eval_split_size_of its) l le
                    (Counter speakers') (World (<[le := []]> h1) sh.2) with
            | (Ret _, w') => (Ret (le, l), w')
            | (Raise e, w') => (Raise e, w')
            | (OutOfFuel, w') => (OutOfFuel, w')
            end
          | Raise e => (Raise e, World (<[le := []]> h1) sh.2)
          | OutOfFuel => (OutOfFuel, World (<[le := []]> h1) sh.2)
          end
        else
          let ev := take (eval_split_size_of its) sh.1 in
          let tr := drop (eval_split_size_of its) sh.1 in
          let l1 := fresh (dom h1) in
          let l2 := fresh (dom (<[l1 := ev]> h1)) in
          (Ret (l1, l2), World (<[l2 := tr]> (<[l1 := ev]> h1)) sh.2)
      else (Raise AssertionError, World h g)
    | Raise e => (Raise e, World h g)
    | OutOfFuel => (OutOfFuel, World h g)
    end.
Proof.
  intros Hl. unfold split_dataset_obj, py_assert. hunfold. cbn [heap rng].
  rewrite Hl. cbn [default from_option id].
  destruct (speakers_of its) as [speakers| |]; [|done..].
  destruct (0 <? _); [|done]. cbn [heap rng].
  rewrite Hl. cbn [default from_option id].
  destruct (rs_shuffle _ _) as [sh g1]; cbn [fst snd heap rng].
  assert (fresh (dom (<[l := sh]> h)) ≠ l) as Hfresh.
  { intros Heq. apply (is_fresh (dom (<[l := sh]> h))). rewrite Heq.
    apply elem_of_dom. rewrite lookup_insert_eq. eauto. }
  destruct (is_multi_speaker speakers); cbn [heap rng].
  - rewrite lookup_insert_ne, lookup_insert_eq by done.
    cbn [default from_option id].
    destruct (speakers_of sh) as [speakers'| |]; [|done..].
    destruct (sample_eval_obj _ _ _ _ _ _) as [[[]| |] w']; done.
  - rewrite lookup_insert_eq. cbn [default from_option id]. done.
Qed.

Lemma fresh_insert_not_in (h : gmap loc (list sample)) (l : loc) (v : list sample) :
  (fresh (dom (<[l := v]> h)) ∉ dom h) ∧ fresh (dom (<[l := v]> h)) ≠ l.
Proof.
  pose proof (is_fresh (dom (<[l := v]> h))) as Hf.
  set (x := fresh (dom (<[l := v]> h))) in *.
  rewrite dom_insert_L in Hf. set_solver.
Qed.

(** C10. After a call that returns, the caller's list object holds the
    shuffled samples; on a multi-speaker input the returned training list is
    that very object, with the evaluation samples deleted from it, so it is
    shorter than it was; on a single-speaker input both returned lists are
    new objects.  No other object of the store is written. *)
Theorem split_dataset_obj_mutates_argument
    (fuel : nat) (w w' : world G) (l le lt : loc) (its : list sample) :
  heap w !! l = Some its →
  split_dataset_obj fuel l w = (Ret (le, lt), w') →
  ∃ ev tr,
    (split_dataset fuel its (rng w)).1 = Ret (ev, tr)
    ∧ heap w' !! le = Some ev
    ∧ heap w' !! lt = Some tr
    ∧ (le ∉ dom (heap w))
    ∧ (∀ l', l' ∈ dom (heap w) → l' ≠ l → heap w' !! l' = heap w !! l')
    ∧ (1 < size (speaker_set its) →
       lt = l
       ∧ tr `sublist_of` (rs_shuffle (rs_seed 0) its).1
       ∧ ev ++ tr ≡ₚ its
       ∧ length tr < length its)
    ∧ (size (speaker_set its) ≤ 1 →
       heap w' !! l = Some (rs_shuffle (rs_seed 0) its).1
       ∧ (lt ∉ dom (heap w))
       ∧ le ≠ lt).
Proof.
  destruct w as [h g]. cbn [heap rng]. intros Hl Hrun.
  rewrite (split_dataset_obj_unfold _ _ _ _ its Hl) in Hrun.
  rewrite split_dataset_unfold.
  destruct (speakers_of its) as [speakers| |] eqn:Hspk; [|done..].
  apply speakers_of_omap in Hspk as [-> Hne].
  destruct (0 <? _) eqn:Hk; [|done]. apply Nat.ltb_lt in Hk.
  cbv zeta in *.
  pose proof (rs_shuffle_perm _ (rs_seed 0) its) as Hperm.
  destruct (rs_shuffle (rs_seed 0) its) as [sh g1]; cbn [fst snd] in *.
  destruct (fresh_insert_not_in h l sh) as [Hle_dom Hle_l].
  destruct (is_multi_speaker (omap last its)) eqn:Hmulti.
  - destruct (speakers_of sh) as [speakers'| |] eqn:Hspk'; [|done..].
    set (le0 := fresh (dom (<[l := sh]> h))) in *.
    pose proof (sample_eval_obj_sim fuel (eval_split_size_of its) l le0
                  (Counter speakers') (<[le0 := []]> (<[l := sh]> h)) g1 sh [])
      as Hsim.
    destruct (sample_eval_obj _ _ _ _ _ _) as [[[]| |] w1]; [|done..].
    injection Hrun as <- <- <-.
    destruct Hsim as (Hrng & Hframe & Hres).
    { done. }
    { by rewrite lookup_insert_ne, lookup_insert_eq. }
    { by rewrite lookup_insert_eq. }
    destruct (sample_eval _ _ _ _) as [[st| |] g2] eqn:Hloop; [|done..].
    cbn [fst snd] in *. destruct Hres as [Hitems Hev].
    apply sample_eval_Ret in Hloop as (_ & Hp & _ & Hlen & Hsub).
    2:{ intros s. by apply Counter_spec. }
    cbn [items items_eval] in *.
    exists (items_eval st), (items st).
    split; [done|]. split; [done|]. split; [done|]. split; [done|].
    split; [|split].
    + intros l' Hl' Hne'. rewrite Hframe; [|done|set_solver].
      rewrite !lookup_insert_ne; [done|done|set_solver].
    + intros _. split; [done|]. split; [done|]. split.
      * by rewrite Hp, Hperm.
      * rewrite app_nil_l in Hp.
        rewrite <- Hperm, <- Hp, length_app. simpl in Hlen. lia.
    + intros Hsingle. apply is_multi_speaker_set in Hmulti. lia.
  - injection Hrun as <- <- <-. cbn [heap rng fst].
    set (ev := take (eval_split_size_of its) sh).
    set (tr := drop (eval_split_size_of its) sh).
    set (l1 := fresh (dom (<[l := sh]> h))) in *.
    destruct (fresh_insert_not_in (<[l := sh]> h) l1 ev) as [Hl2_dom Hl2_l1].
    set (l2 := fresh (dom (<[l1 := ev]> (<[l := sh]> h)))) in *.
    assert ((l2 ∉ dom h) ∧ l2 ≠ l) as [Hl2_h Hl2_l].
    { rewrite dom_insert_L in Hl2_dom. set_solver. }
    exists ev, tr.
    split; [done|]. split; [by rewrite lookup_insert_ne, lookup_insert_eq|].
    split; [by rewrite lookup_insert_eq|]. split; [done|].
    split; [|split].
    + intros l' Hl' Hne'. rewrite !lookup_insert_ne; [done|done|set_solver..].
    + intros Hm. apply is_multi_speaker_set in Hm. congruence.
    + intros _. split; [|done].
      by rewrite lookup_insert_ne, lookup_insert_ne, lookup_insert_eq.
Qed.
End ObjectFacts.

Lemma split_dataset_obj_mutates_argument_witness :
  heap demo_world !! 1%positive = Some (corpus 100 2)
  ∧ demo_run = (Ret (demo_run_eval, demo_run_train), demo_run.2)
  ∧ 1 < size (speaker_set (corpus 100 2))
  ∧ demo_run_train = 1%positive
  ∧ length (default [] (heap demo_run.2 !! 1%positive)) < length (corpus 100 2).
Proof.
  assert (heap demo_world !! 1%positive = Some (corpus 100 2)) as Hl
    by reflexivity.
  assert (demo_run = (Ret (demo_run_eval, demo_run_train), demo_run.2)) as Hrun
    by (vm_compute; reflexivity).
  assert (1 < size (speaker_set (corpus 100 2))) as Hmulti by by_compute.
  split; [exact Hl|]. split; [exact Hrun|]. split; [exact Hmulti|].
  destruct (split_dataset_obj_mutates_argument 5 demo_world demo_run.2
              1%positive demo_run_eval demo_run_train (corpus 100 2) Hl Hrun)
    as (ev & tr & _ & _ & Htr & _ & _ & Hm & _).
  destruct (Hm Hmulti) as (Hlt & _ & _ & Hlen).
  split; [exact Hlt|]. rewrite Hlt in Htr. rewrite Htr. exact Hlen.
Defined.


(** ** The character census *)

(** C9, as the code has it.  On samples whose first fields are ["abcABC"]
    and ["é"], [find_unique_chars] counts the seven characters
    [A B C a b c é], reports [a b c é] as the lower-case ones, since
    ["é".islower()] holds, and returns the set of the four strings
    ["a"], ["b"], ["c"], ["é"]. *)
Theorem find_unique_chars_abcABC_e_acute (rest1 rest2 : sample) (verbose : bool) :
  find_unique_chars [u "abcABC" :: rest1; [233%N] :: rest2] verbose =
    Ret ({[ u "a"; u "b"; u "c"; [233%N] ]},
         if verbose then
           Some {| number_of_unique_characters := 7;
                   unique_characters := u "ABCabc" ++ [233%N];
                   unique_lower_characters := u "abc" ++ [233%N];
                   unique_all_forced_to_lower_characters := u "abc" ++ [233%N] |}
         else None).
Proof.
  unfold find_unique_chars. cbn [omapM lookup list_lookup obind].
  destruct verbose; vm_compute; reflexivity.
Qed.

(** C9, as the spec has it, fails: the lower-case characters reported are
    not [a b c] alone. *)
Lemma find_unique_chars_lower_is_not_abc :
  ¬ ∃ chars report,
      find_unique_chars [[u "abcABC"]; [[233%N]]] true = Ret (chars, Some report)
      ∧ unique_lower_characters report = u "abc".
Proof.
  intros (chars & report & Hrun & Hlower).
  vm_compute in Hrun. injection Hrun as _ <-. vm_compute in Hlower. discriminate.
Qed.

(** ** The aggregator *)

Lemma attach_attn_prefix (m : gmap str str) (ins ins' : sample) :
  attach_attn m ins = Ret ins' → ins `prefix_of` ins'.
Proof.
  unfold attach_attn. destruct (ins !! 1) as [key|]; [|done].
  destruct (m !! key) as [v|]; [|done]. intros [= <-]. by eexists.
Qed.

Lemma attach_attn_present (m : gmap str str) (ins : sample) :
  key_present m ins → attach_attn m ins = Ret (with_attn m ins).
Proof.
  intros (key & Hkey & [v Hv]). unfold attach_attn, with_attn.
  rewrite Hkey. simpl. by rewrite Hv.
Qed.

Lemma attach_attn_absent (m : gmap str str) (ins : sample) :
  key_absent m ins → attach_attn m ins = Raise KeyError.
Proof.
  intros (key & Hkey & Hv). unfold attach_attn. by rewrite Hkey, Hv.
Qed.

Lemma key_present_or_absent (m : gmap str str) (ins : sample) :
  2 ≤ length ins → key_present m ins ∨ key_absent m ins.
Proof.
  intros Hlen. destruct (lookup_lt_is_Some_2 ins 1) as [key Hkey]; [lia|].
  destruct (m !! key) as [v|] eqn:Hv; [left|right]; exists key; eauto.
Qed.

Lemma omapM_attach_prefix (m : gmap str str) (l l' : list sample) :
  omapM (attach_attn m) l = Ret l' → Forall2 prefix l l'.
Proof.
  rewrite omapM_Ret_Forall2. intros Hl. eapply Forall2_impl; [exact Hl|].
  intros ins ins'. apply attach_attn_prefix.
Qed.

Lemma omapM_attach_present (m : gmap str str) (l : list sample) :
  Forall (key_present m) l →
  omapM (attach_attn m) l = Ret (with_attn_all m l).
Proof.
  induction 1 as [|ins l Hins _ IH]; [done|].
  simpl. by rewrite (attach_attn_present _ _ Hins), IH.
Qed.

Lemma omapM_attach_absent (m : gmap str str) (l : list sample) :
  Forall (λ ins, 2 ≤ length ins) l →
  Exists (key_absent m) l →
  omapM (attach_attn m) l = Raise KeyError.
Proof.
  induction 1 as [|ins l Hlen _ IH]; intros Hex.
  - by apply Exists_nil in Hex.
  - simpl. destruct (key_present_or_absent m ins Hlen) as [Hp|Ha].
    + rewrite (attach_attn_present _ _ Hp). cbn [obind].
      apply Exists_cons in Hex as [Ha|Hex].
      * destruct Hp as (key & Hkey & [v Hv]), Ha as (key' & Hkey' & Hv').
        congruence.
      * by rewrite IH.
    + by rewrite (attach_attn_absent _ _ Ha).
Qed.

Lemma omapM_attach_cases (m : gmap str str) (l : list sample) :
  Forall (λ ins, 2 ≤ length ins) l →
  (Forall (key_present m) l ∧ omapM (attach_attn m) l = Ret (with_attn_all m l))
  ∨ (Exists (key_absent m) l ∧ omapM (attach_attn m) l = Raise KeyError).
Proof.
  induction 1 as [|ins l Hlen Hl IH].
  - left. by split.
  - destruct (key_present_or_absent m ins Hlen) as [Hp|Ha].
    + destruct IH as [[Hall Hrun]|[Hex Hrun]].
      * left. split; [by constructor|]. by apply omapM_attach_present; constructor.
      * right. split; [by right|].
        apply omapM_attach_absent; [by constructor|by right].
    + right. split; [by left|].
      apply omapM_attach_absent; [by constructor|by left].
Qed.

Lemma attach_attn_Ret (m : gmap str str) (ins ins' : sample) :
  attach_attn m ins = Ret ins' → key_present m ins ∧ ins' = with_attn m ins.
Proof.
  unfold attach_attn, with_attn, key_present.
  destruct (ins !! 1) as [key|]; [|done]. simpl.
  destruct (m !! key) as [v|] eqn:Hv; [|done]. intros [= <-]. eauto.
Qed.

Lemma omapM_attach_Ret (m : gmap str str) (l l' : list sample) :
  omapM (attach_attn m) l = Ret l' →
  Forall (key_present m) l ∧ l' = with_attn_all m l.
Proof.
  rewrite omapM_Ret_Forall2. induction 1 as [|ins ins' l l' Hins _ [IH1 IH2]].
  - by split.
  - apply attach_attn_Ret in Hins as [Hp ->]. split; [by constructor|].
    unfold with_attn_all in *. csimpl. by rewrite IH2.
Qed.

Section AggregatorFacts.
Context {SE : Type} (env : module_env SE).
Context `{RandomState G}.

Lemma load_attn_masks_prefix (d : dataset) (tr tr' : list sample)
    (ev ev' : option (list sample)) :
  load_attn_masks env d tr ev = Ret (tr', ev') → Forall2 prefix tr tr'.
Proof.
  unfold load_attn_masks. destruct (truthy _).
  2:{ intros [= <- <-]. by apply Forall_Forall2_diag, Forall_true. }
  destruct (load_attention_mask_meta_data _ _) as [pairs| |]; [|done..].
  cbn [obind].
  destruct (omapM (attach_attn (dict pairs)) tr) as [tr1| |] eqn:Htr; [|done..].
  cbn [obind]. apply omapM_attach_prefix in Htr.
  destruct ev as [[|i l]|]; [by intros [= <- <-]| |by intros [= <- <-]].
  destruct (omapM (attach_attn (dict pairs)) (i :: l)); [|done..].
  by intros [= <- <-].
Qed.

Lemma load_attn_masks_none (d : dataset) (tr : list sample)
    (ev : option (list sample)) :
  load_attn_masks env (without_attn_mask d) tr ev = Ret (tr, ev).
Proof. done. Qed.

Lemma load_attn_masks_present (d : dataset) (pairs : list (str * str))
    (tr : list sample) (ev : option (list sample)) :
  truthy (meta_file_attn_mask d) = true →
  load_attention_mask_meta_data env (meta_file_attn_mask d) = Ret pairs →
  Forall (key_present (dict pairs)) (tr ++ default [] ev) →
  load_attn_masks env d tr ev =
    Ret (with_attn_all (dict pairs) tr, with_attn_all (dict pairs) <$> ev).
Proof.
  intros Hmask Hpairs Hall. apply Forall_app in Hall as [Htr Hev].
  unfold load_attn_masks. rewrite Hmask, Hpairs. cbn [obind].
  rewrite (omapM_attach_present _ _ Htr). cbn [obind].
  destruct ev as [[|i l]|]; cbn [default from_option id] in Hev; [done| |done].
  by rewrite (omapM_attach_present _ _ Hev).
Qed.

Lemma load_attn_masks_absent (d : dataset) (pairs : list (str * str))
    (tr : list sample) (ev : option (list sample)) :
  truthy (meta_file_attn_mask d) = true →
  load_attention_mask_meta_data env (meta_file_attn_mask d) = Ret pairs →
  Forall (λ ins, 2 ≤ length ins) (tr ++ default [] ev) →
  Exists (key_absent (dict pairs)) (tr ++ default [] ev) →
  load_attn_masks env d tr ev = Raise KeyError.
Proof.
  intros Hmask Hpairs Hlen Hex. apply Forall_app in Hlen as [Hltr Hlev].
  unfold load_attn_masks. rewrite Hmask, Hpairs. cbn [obind].
  destruct (omapM_attach_cases (dict pairs) tr Hltr) as [[Hall ->]|[_ ->]];
    [|done].
  cbn [obind]. apply Exists_app in Hex as [Hex|Hex].
  { apply Exists_exists in Hex as (ins & Hin & key & Hkey & Hnone).
    rewrite Forall_forall in Hall.
    destruct (Hall _ Hin) as (key' & Hkey' & [v Hv]). congruence. }
  destruct ev as [[|i l]|]; cbn [default from_option id] in Hex, Hlev;
    [by apply Exists_nil in Hex| |by apply Exists_nil in Hex].
  by rewrite (omapM_attach_absent _ _ Hlev Hex).
Qed.

Lemma load_corpus_Ret (fuel : nat) (eval_split : bool)
    (pargs : gmap string (pyval SE)) (st : loader_state) (d : dataset)
    (g g' : G) (tr_all : list sample) (ev_all : option (list sample))
    (fa : gmap string (pyval SE)) :
  load_corpus env fuel eval_split pargs st d g = (Ret (tr_all, ev_all, fa), g') →
  ∃ fa0 f raw t,
    formatter_args_now st = Some fa0
    ∧ match formatter st with
      | Some f' => Ret f'
      | None => _get_formatter_by_name env (name d)
      end = Ret f
    ∧ f (<["meta_file"%string := VStr (meta_file_train d)]>
           (<["root_path"%string := VStr (path d)]> fa0)) = Ret raw
    ∧ train_contribution fuel eval_split d raw = Ret t
    ∧ t ⊆+ raw
    ∧ tr_all = meta_data_train_all st ++ t.
Proof.
  unfold load_corpus, train_contribution. munfold.
  destruct (formatter_args_now st) as [fa0|]; [|done].
  destruct (match formatter st with Some _ => _ | None => _ end)
    as [f| |] eqn:Hf; [|done..].
  destruct (f _) as [raw| |] eqn:Hraw; [|done..].
  destruct eval_split; cbn [andb].
  - destruct (truthy (meta_file_val d)); cbn [negb].
    + destruct (f pargs) as [ev| |]; [|done..].
      intros [= <- <- <- <-]. by exists fa0, f, raw, raw.
    + destruct (split_dataset fuel raw g) as [[[ev tr]| |] g1] eqn:Hsplit;
        [|done..].
      intros [= <- <- <- <-]. exists fa0, f, raw, tr.
      rewrite (split_dataset_reseeds fuel (rs_seed 0) g), Hsplit.
      repeat split; try done.
      apply split_dataset_Ret_perm in Hsplit. rewrite <- Hsplit.
      by apply submseteq_inserts_l.
  - intros [= <- <- <- <-]. by exists fa0, f, raw, raw.
Qed.

Lemma load_dataset_Ret (fuel : nat) (eval_split : bool)
    (pargs : gmap string (pyval SE)) (st st' : loader_state) (d : dataset)
    (g g' : G) :
  load_dataset env fuel eval_split pargs st d g = (Ret st', g') →
  ∃ tr_all ev_all fa,
    load_corpus env fuel eval_split pargs st d g = (Ret (tr_all, ev_all, fa), g')
    ∧ load_attn_masks env d tr_all ev_all =
        Ret (meta_data_train_all st', meta_data_eval_all st')
    ∧ formatter st' = None
    ∧ formatter_args_now st' = Some fa.
Proof.
  unfold load_dataset. munfold.
  destruct (load_corpus _ _ _ _ _ _ _) as [[[[tr_all ev_all] fa]| |] g1];
    [|done..].
  destruct (load_attn_masks _ _ _ _) as [[tr ev]| |] eqn:Hattn; [|done..].
  intros [= <- <-]. by exists tr_all, ev_all, fa.
Qed.

(** X15. The attention step of a corpus that declares a manifest rewrites what
    the earlier corpora left in the training accumulator: when the pass
    returns, every sample accumulated before it had its key in this
    corpus's mapping and now carries one more field. *)
Lemma load_dataset_attn_mask_extends_accumulated (fuel : nat)
    (eval_split : bool) (pargs : gmap string (pyval SE))
    (st st' : loader_state) (d : dataset) (g g' : G)
    (pairs : list (str * str)) :
  truthy (meta_file_attn_mask d) = true →
  load_attention_mask_meta_data env (meta_file_attn_mask d) = Ret pairs →
  load_dataset env fuel eval_split pargs st d g = (Ret st', g') →
  Forall (key_present (dict pairs)) (meta_data_train_all st)
  ∧ take (length (meta_data_train_all st)) (meta_data_train_all st')
    = with_attn_all (dict pairs) (meta_data_train_all st).
Proof.
  intros Hmask Hpairs Hrun.
  apply load_dataset_Ret in Hrun as (tr & ev & fa & Hc & Hm & _ & _).
  apply load_corpus_Ret in Hc as (_ & _ & _ & t & _ & _ & _ & _ & _ & ->).
  unfold load_attn_masks in Hm. rewrite Hmask, Hpairs in Hm. cbn [obind] in Hm.
  destruct (omapM (attach_attn (dict pairs)) (meta_data_train_all st ++ t))
    as [tr'| |] eqn:Htr; [|done..].
  cbn [obind] in Hm.
  assert (meta_data_train_all st' = tr') as ->.
  { destruct ev as [[|i l]|]; [by injection Hm| |by injection Hm].
    destruct (omapM (attach_attn (dict pairs)) (i :: l)); [|done..].
    by injection Hm. }
  apply omapM_attach_Ret in Htr as [Hall ->].
  apply Forall_app in Hall as [Hall _]. split; [done|].
  unfold with_attn_all. rewrite fmap_app, take_app_length'; [done|].
  by rewrite length_fmap.
Qed.

Lemma load_tts_samples_one (fuel : nat) (config : config SE) (d : dataset)
    (eval_split : bool) (fmt : option (gmap string (pyval SE) → outcome (list sample)))
    (g : G) :
  datasets config = Some [d] →
  load_tts_samples env fuel config eval_split fmt g =
    match preprocessor_args_of env config with
    | Ret pargs =>
      match load_corpus env fuel eval_split pargs
              (LoaderState [] (if eval_split then Some [] else None) fmt
                 (formatter_args env)) d g with
      | (Ret (tr, ev, fa), g') =>
        match load_attn_masks env d tr ev with
        | Ret all => (Ret (Some all.1, all.2), g')
        | Raise e => (Raise e, g')
        | OutOfFuel => (OutOfFuel, g')
        end
      | (Raise e, g') => (Raise e, g')
      | (OutOfFuel, g') => (OutOfFuel, g')
      end
    | Raise e => (Raise e, g)
    | OutOfFuel => (OutOfFuel, g)
    end.
Proof.
  intros Hd. unfold load_tts_samples. rewrite Hd. cbn [for_datasets].
  unfold load_dataset. munfold.
  destruct (preprocessor_args_of env config) as [pargs| |]; [|done..].
  destruct (load_corpus _ _ _ _ _ _ _) as [[[[tr ev] fa]| |] g1]; [|done..].
  by destruct (load_attn_masks _ _ _ _) as [[tr' ev']| |].
Qed.

(** X14. The name [formatter_args] has to come from outside the file: with
    no binding for it, the first corpus already raises [NameError]. *)
Lemma load_tts_samples_unbound_formatter_args (fuel : nat) (config : config SE)
    (d : dataset) (ds : list dataset) (eval_split : bool)
    (fmt : option (gmap string (pyval SE) → outcome (list sample)))
    (pargs : gmap string (pyval SE)) (g : G) :
  formatter_args env = None →
  datasets config = Some (d :: ds) →
  preprocessor_args_of env config = Ret pargs →
  load_tts_samples env fuel config eval_split fmt g = (Raise NameError, g).
Proof.
  intros Hfa Hd Hp. unfold load_tts_samples. rewrite Hd, Hp.
  cbn [for_datasets]. unfold load_dataset, load_corpus. munfold.
  cbn [formatter_args_now]. by rewrite Hfa.
Qed.

(** C6. When [load_tts_samples] returns on a config of two corpora, both
    formatters were found by name, each corpus contributed the training
    samples its formatter returned (or what the splitter left of them, a
    sub-multiset), and the training list is the first contribution followed
    by the second, sample by sample, each possibly extended by attention
    fields: its length is the sum of the two. *)
Theorem load_tts_samples_two_corpora (fuel : nat) (config : config SE)
    (d1 d2 : dataset) (eval_split : bool) (g g' : G)
    (train : list sample) (ev : option (list sample)) :
  datasets config = Some [d1; d2] →
  load_tts_samples env fuel config eval_split None g = (Ret (Some train, ev), g') →
  ∃ f1 f2 a1 a2 raw1 raw2 t1 t2,
    _get_formatter_by_name env (name d1) = Ret f1
    ∧ _get_formatter_by_name env (name d2) = Ret f2
    ∧ a1 !! "meta_file"%string = Some (VStr (meta_file_train d1))
    ∧ a2 !! "meta_file"%string = Some (VStr (meta_file_train d2))
    ∧ f1 a1 = Ret raw1
    ∧ f2 a2 = Ret raw2
    ∧ train_contribution fuel eval_split d1 raw1 = Ret t1
    ∧ train_contribution fuel eval_split d2 raw2 = Ret t2
    ∧ t1 ⊆+ raw1
    ∧ t2 ⊆+ raw2
    ∧ length train = length t1 + length t2
    ∧ Forall2 prefix (t1 ++ t2) train.
Proof.
  intros Hd. unfold load_tts_samples. rewrite Hd. cbn [for_datasets]. munfold.
  destruct (preprocessor_args_of env config) as [pargs| |]; [|done..].
  destruct (load_dataset _ _ _ _ _ d1 _) as [[st1| |] g1] eqn:H1; [|done..].
  destruct (load_dataset _ _ _ _ _ d2 _) as [[st2| |] g2] eqn:H2; [|done..].
  intros [= <- <- <-].
  apply load_dataset_Ret in H1 as (tr1 & ev1 & fa1 & Hc1 & Hm1 & Hf1 & Hfa1).
  apply load_dataset_Ret in H2 as (tr2 & ev2 & fa2 & Hc2 & Hm2 & _ & _).
  apply load_corpus_Ret in Hc1
    as (fa0 & f1 & raw1 & t1 & _ & Hget1 & Hraw1 & Ht1 & Hsub1 & ->).
  apply load_corpus_Ret in Hc2
    as (fa0' & f2 & raw2 & t2 & _ & Hget2 & Hraw2 & Ht2 & Hsub2 & ->).
  rewrite Hf1 in Hget2. cbn [formatter meta_data_train_all] in *.
  apply load_attn_masks_prefix in Hm1, Hm2.
  assert (Forall2 prefix (t1 ++ t2) (meta_data_train_all st2)) as Hall.
  { eapply Forall2_trans; [|apply Forall2_app; [exact Hm1|]|exact Hm2].
    - intros x y z Hxy Hyz. by etrans.
    - by apply Forall_Forall2_diag, Forall_true. }
  eexists f1, f2, _, _, raw1, raw2, t1, t2.
  split; [exact Hget1|]. split; [exact Hget2|].
  split; [by rewrite lookup_insert_eq|]. split; [by rewrite lookup_insert_eq|].
  split; [exact Hraw1|]. split; [exact Hraw2|].
  split; [exact Ht1|]. split; [exact Ht2|].
  split; [exact Hsub1|]. split; [exact Hsub2|].
  split; [|exact Hall].
  apply Forall2_length in Hall. by rewrite <- Hall, length_app.
Qed.

(** C7. For one corpus that declares an alignment-mask manifest, compare
    with the same load without the manifest, which returned [train] and
    [ev].  If the key field of every one of these samples is in the
    mapping, the load returns them with the stripped attention file of
    their key as a trailing field; if the key of one of them is not, the
    load raises [KeyError]. *)
Theorem load_tts_samples_attn_mask (fuel : nat) (config : config SE)
    (d : dataset) (eval_split : bool)
    (fmt : option (gmap string (pyval SE) → outcome (list sample)))
    (g g' : G) (pairs : list (str * str))
    (train : list sample) (ev : option (list sample)) :
  datasets config = Some [d] →
  truthy (meta_file_attn_mask d) = true →
  load_attention_mask_meta_data env (meta_file_attn_mask d) = Ret pairs →
  load_tts_samples env fuel
    (Config (Some [without_attn_mask d]) (symbol_embedding_filename config)
       (symbol_embedding config)) eval_split fmt g
    = (Ret (Some train, ev), g') →
  (Forall (key_present (dict pairs)) (train ++ default [] ev) →
   load_tts_samples env fuel config eval_split fmt g =
     (Ret (Some (with_attn_all (dict pairs) train),
           with_attn_all (dict pairs) <$> ev), g'))
  ∧ (Forall (λ ins, 2 ≤ length ins) (train ++ default [] ev) →
     Exists (key_absent (dict pairs)) (train ++ default [] ev) →
     load_tts_samples env fuel config eval_split fmt g = (Raise KeyError, g')).
Proof.
  intros Hd Hmask Hpairs Hplain.
  rewrite (load_tts_samples_one _ _ (without_attn_mask d)) in Hplain by done.
  rewrite (load_tts_samples_one _ _ d) by done.
  change (preprocessor_args_of env (Config _ _ _))
    with (preprocessor_args_of env config) in Hplain.
  destruct (preprocessor_args_of env config) as [pargs| |]; [|done..].
  change (load_corpus env fuel eval_split pargs ?st (without_attn_mask d) g)
    with (load_corpus env fuel eval_split pargs st d g) in Hplain.
  destruct (load_corpus _ _ _ _ _ _ _) as [[[[tr ev0] fa]| |] g1]; [|done..].
  rewrite load_attn_masks_none in Hplain. cbn [fst snd] in Hplain.
  injection Hplain as -> -> ->.
  split.
  - intros Hall. by rewrite (load_attn_masks_present d pairs).
  - intros Hlen Hex. by rewrite (load_attn_masks_absent d pairs).
Qed.
End AggregatorFacts.

(** ** The aggregator on concrete configs *)

Lemma load_tts_samples_two_corpora_witness :
  datasets two_corpora
    = Some [Dataset (u "LJSpeech") (u "/data/lj") (u "metadata.csv") [] [];
            Dataset (u "VCTK") (u "/data/vctk") (u "metadata.csv") [] []]
  ∧ two_corpora_run = (Ret (Some two_corpora_train, two_corpora_eval),
                       two_corpora_run.2)
  ∧ length two_corpora_train = 218
  ∧ ∃ t1 t2, length t1 = 99 ∧ length t2 = 119
             ∧ Forall2 prefix (t1 ++ t2) two_corpora_train.
Proof.
  assert (two_corpora_run = (Ret (Some two_corpora_train, two_corpora_eval),
                             two_corpora_run.2)) as Hrun
    by (vm_compute; reflexivity).
  split; [reflexivity|]. split; [exact Hrun|]. split; [by vm_compute|].
  destruct (load_tts_samples_two_corpora demo_env 5 two_corpora _ _ true 3%N
              two_corpora_run.2 two_corpora_train two_corpora_eval
              eq_refl Hrun)
    as (f1 & f2 & a1 & a2 & raw1 & raw2 & t1 & t2
        & Hf1 & Hf2 & Ha1 & Ha2 & Hraw1 & Hraw2 & Ht1 & Ht2 & _ & _ & _ & Hall).
  exists t1, t2. split; [|split; [|exact Hall]].
  - injection Hf1 as <-. unfold formatter_of in Hraw1. rewrite Ha1 in Hraw1.
    injection Hraw1 as <-. vm_compute in Ht1. by injection Ht1 as <-.
  - injection Hf2 as <-. unfold formatter_of in Hraw2. rewrite Ha2 in Hraw2.
    injection Hraw2 as <-. vm_compute in Ht2. by injection Ht2 as <-.
Defined.

Lemma load_tts_samples_attn_mask_witness :
  load_attention_mask_meta_data demo_env (u "ab_attn.txt") = Ret ab_pairs
  ∧ load_tts_samples demo_env 5 (Config (Some [ab_corpus]) None None)
      false None 3%N
    = (Ret (Some [[u "wavs/a.wav"; u "a.wav"; u "spk0"; u "a.attn"];
                  [u "wavs/b.wav"; u "b.wav"; u "spk1"; u "b.attn"]], None),
       3%N)
  ∧ load_tts_samples demo_env 5 (Config (Some [c_corpus_masked]) None None)
      false None 3%N
    = (Raise KeyError, 3%N).
Proof.
  assert (load_attention_mask_meta_data demo_env (u "ab_attn.txt") = Ret ab_pairs)
    as Hpairs by (vm_compute; reflexivity).
  split; [exact Hpairs|]. split.
  - destruct (load_tts_samples_attn_mask demo_env 5
                (Config (Some [ab_corpus]) None None) ab_corpus false None
                3%N 3%N ab_pairs ab_samples None eq_refl eq_refl Hpairs)
      as [Hpresent _]; [by vm_compute|].
    rewrite Hpresent; [by vm_compute|].
    repeat constructor.
    + exists (u "a.wav"). split; [reflexivity|]. eexists. by vm_compute.
    + exists (u "b.wav"). split; [reflexivity|]. eexists. by vm_compute.
  - destruct (load_tts_samples_attn_mask demo_env 5
                (Config (Some [c_corpus_masked]) None None) c_corpus_masked
                false None 3%N 3%N ab_pairs c_samples None
                eq_refl eq_refl Hpairs)
      as [_ Habsent]; [by vm_compute|].
    apply Habsent.
    + repeat constructor.
    + left. exists (u "c.wav"). split; [reflexivity|]. by vm_compute.
Defined.

(** C8, as the code has it: the attention loop runs over the whole
    accumulators.  A corpus without a manifest, loaded before one that has a
    manifest, is looked up in that manifest: its sample keyed [c.wav] raises
    [KeyError], and samples whose keys the manifest happens to hold get its
    attention files appended. *)
Theorem attention_loop_reaches_earlier_corpus :
  load_tts_samples demo_env 5 c_then_ab false None 3%N = (Raise KeyError, 3%N)
  ∧ load_tts_samples demo_env 5 ab_then_ab false None 3%N
    = (Ret (Some [[u "wavs/a.wav"; u "a.wav"; u "spk0"; u "a.attn"];
                  [u "wavs/b.wav"; u "b.wav"; u "spk1"; u "b.attn"];
                  [u "wavs/a.wav"; u "a.wav"; u "spk0"; u "a.attn"];
                  [u "wavs/b.wav"; u "b.wav"; u "spk1"; u "b.attn"]], None),
       3%N).
Proof. split; by vm_compute. Qed.

(** * Further properties *)

(** ** The splitter: what it raises, and what a returned split holds *)

Lemma speakers_of_Raise (l : list sample) (e : exn) :
  speakers_of l = Raise e → e = IndexError ∧ Exists (λ it, it = []) l.
Proof.
  unfold speakers_of. induction l as [|it l IH]; [done|]. simpl.
  unfold item_speaker at 1. destruct (last it) as [s|] eqn:Hs; simpl.
  - destruct (omapM item_speaker l) as [spk|e'|]; [done| |done].
    intros [= <-]. destruct (IH eq_refl) as [-> Hex]. split; [done|by right].
  - intros [= <-]. split; [done|]. left. by apply last_None.
Qed.

Lemma speakers_of_empty_sample (l : list sample) :
  Exists (λ it, it = []) l → speakers_of l = Raise IndexError.
Proof.
  intros Hex. destruct (speakers_of l) as [spk|e|] eqn:Hl.
  - apply speakers_of_omap in Hl as [_ Hne].
    apply Exists_exists in Hex as (it & Hit & ->).
    rewrite Forall_forall in Hne. by destruct (Hne [] Hit).
  - by apply speakers_of_Raise in Hl as [-> _].
  - unfold speakers_of in Hl. exfalso. clear Hex.
    induction l as [|it l IH]; [done|]. simpl in Hl.
    unfold item_speaker in Hl at 1. destruct (last it); [|done].
    simpl in Hl. destruct (omapM item_speaker l); [done|done|by apply IH].
Qed.

Section SplitterExtras.
Context `{RandomState G}.

(** Inside the loop nothing raises: the pool is never empty when a draw is
    made, the drawn index is in range, and the drawn sample has a last
    field. *)
Lemma sample_eval_no_raise (fuel k : nat) (st : loop_state) (g : G) (e : exn) :
  counter_ok st →
  Forall (λ it, it ≠ []) (items st) →
  items st ≠ [] →
  (sample_eval fuel k st g).1 ≠ Raise e.
Proof.
  revert st g. induction fuel as [|fuel IH]; intros st g Hok Hne Hpool.
  - simpl. by destruct (_ <? k).
  - rewrite sample_eval_unfold. destruct (_ <? k); [|done].
    assert (0 < length (items st)) as Hpos
      by (destruct (items st); [done|simpl; lia]).
    assert ((0 <? length (items st)) = true) as -> by by apply Nat.ltb_lt.
    pose proof (rs_randint_range g 0 _ Hpos) as [_ Hidx].
    destruct (rs_randint _ _ _) as [idx g1]; simpl in *.
    apply lookup_lt_is_Some_2 in Hidx as [item Hidx]. rewrite Hidx.
    assert (item ≠ []) as Hitem.
    { rewrite Forall_forall in Hne. apply Hne. by eapply list_elem_of_lookup_2. }
    apply item_speaker_nonempty in Hitem as (spk & -> & Hspk).
    destruct (1 <? _) eqn:Hc; [|by apply IH].
    apply Nat.ltb_lt in Hc. rewrite Hok in Hc.
    pose proof (speaker_count_delete spk _ _ _ Hidx) as Hd.
    rewrite decide_True in Hd by done.
    apply IH.
    + by apply accepted_counter_ok.
    + simpl. by apply Forall_delete.
    + simpl. intros Hnil. rewrite Hnil in Hd. cbn in Hd. lia.
Qed.

(** X1. Whatever [split_dataset] raises is the [IndexError] of an empty
    sample or the [AssertionError] of a corpus of fewer than 100 samples:
    an empty sample raises [IndexError] whatever the size of the corpus, and
    no draw, lookup or deletion of the loop ever raises. *)
Theorem split_dataset_raises (fuel : nat) (g : G) (its : list sample) :
  (Exists (λ it, it = []) its →
   split_dataset fuel its g = (Raise IndexError, g))
  ∧ ∀ e, (split_dataset fuel its g).1 = Raise e →
         (e = IndexError ∧ Exists (λ it, it = []) its)
         ∨ (e = AssertionError ∧ Forall (λ it, it ≠ []) its ∧ length its < 100).
Proof.
  rewrite split_dataset_unfold. split.
  - intros Hex. by rewrite (speakers_of_empty_sample _ Hex).
  - intros e.
    destruct (speakers_of its) as [speakers|e'|] eqn:Hspk; [| |done].
    2:{ intros [= <-]. left. by apply speakers_of_Raise. }
    apply speakers_of_omap in Hspk as [-> Hne].
    destruct (0 <? _) eqn:Hk.
    2:{ intros [= <-]. right. split; [done|]. split; [done|].
        apply eval_split_size_zero. by apply Nat.ltb_ge. }
    cbv zeta. pose proof (rs_shuffle_perm _ (rs_seed 0) its) as Hperm.
    destruct (rs_shuffle (rs_seed 0) its) as [sh g1]; cbn [fst snd] in *.
    destruct (is_multi_speaker _) eqn:Hmulti; [|done].
    assert (Forall (λ it, it ≠ []) sh) as Hne' by by rewrite Hperm.
    rewrite (speakers_of_nonempty _ Hne').
    pose proof (sample_eval_no_raise fuel (eval_split_size_of its)
                  (LoopState sh [] (Counter (omap last sh))) g1 e) as Hloop.
    destruct (sample_eval _ _ _ _) as [[st|e'|] g2]; [done| |done].
    intros [= ->]. destruct Hloop; [| | |done].
    + intros s. simpl. apply Counter_spec. by apply speakers_of_nonempty.
    + done.
    + simpl. intros ->. apply Permutation_nil_l in Hperm. subst its.
      apply is_multi_speaker_set in Hmulti.
      change (speaker_set []) with (∅ : gset str) in Hmulti.
      rewrite size_empty in Hmulti. lia.
Qed.

(** X2. A returned split is a partition of the input: the evaluation and
    training lists together are a permutation of it, the evaluation list
    has exactly [min(500, N / 100)] samples, between 1 and 500, and the
    training list the rest. *)
Theorem split_dataset_partition
    (fuel : nat) (g g' : G) (its ev tr : list sample) :
  split_dataset fuel its g = (Ret (ev, tr), g') →
  ev ++ tr ≡ₚ its
  ∧ length ev = 500 `min` (length its / 100)
  ∧ 1 ≤ length ev ≤ 500
  ∧ length tr = length its - length ev.
Proof.
  intros Hrun. pose proof (split_dataset_Ret_perm _ _ _ _ _ _ Hrun) as Hperm.
  assert (length ev = eval_split_size_of its ∧ 0 < eval_split_size_of its)
    as [Hlen Hpos].
  { rewrite split_dataset_unfold in Hrun.
    destruct (speakers_of its) as [speakers| |]; [|done..].
    destruct (0 <? _) eqn:Hk; [|done]. apply Nat.ltb_lt in Hk.
    split; [|done]. cbv zeta in Hrun.
    pose proof (rs_shuffle_perm _ (rs_seed 0) its) as Hsh.
    pose proof (eval_split_size_le its) as Hle.
    destruct (rs_shuffle (rs_seed 0) its) as [sh g1]; cbn [fst snd] in *.
    destruct (is_multi_speaker speakers).
    - destruct (speakers_of sh) as [speakers'| |] eqn:Hspk'; [|done..].
      destruct (sample_eval _ _ _ _) as [[st| |] g2] eqn:Hloop; [|done..].
      injection Hrun as <- <- <-.
      apply sample_eval_Ret in Hloop as (_ & _ & _ & Hlen & _).
      + simpl in Hlen. lia.
      + intros s. by apply Counter_spec.
    - injection Hrun as <- <- <-. rewrite length_take.
      rewrite (Permutation_length Hsh). lia. }
  apply Permutation_length in Hperm as Hl. rewrite length_app in Hl.
  unfold eval_split_size_of in *. repeat split; [done|lia..].
Qed.

(** X3. On a multi-speaker input a returned split keeps every speaker in
    the training list, also one with a single sample: the training list has
    the speakers of the input, and a speaker with one sample has none in
    the evaluation list. *)
Theorem split_dataset_keeps_speaker_set
    (fuel : nat) (g g' : G) (its ev tr : list sample) :
  1 < size (speaker_set its) →
  split_dataset fuel its g = (Ret (ev, tr), g') →
  speaker_set tr = speaker_set its
  ∧ ∀ s, speaker_count s its = 1 → speaker_count s ev = 0.
Proof.
  intros Hmulti Hrun.
  pose proof (split_dataset_Ret_perm _ _ _ _ _ _ Hrun) as Hperm.
  assert (∀ s, speaker_count s ev + speaker_count s tr = speaker_count s its)
    as Hsum.
  { intros s. rewrite <- (speaker_count_perm s _ _ Hperm).
    unfold speaker_count. by rewrite filter_app, length_app. }
  assert (∀ s, 1 ≤ speaker_count s its → 1 ≤ speaker_count s tr) as Hkeep.
  { rewrite split_dataset_unfold in Hrun.
    destruct (speakers_of its) as [speakers| |] eqn:Hspk; [|done..].
    apply speakers_of_omap in Hspk as [-> Hne].
    destruct (0 <? _); [|done].
    apply is_multi_speaker_set in Hmulti. rewrite Hmulti in Hrun.
    cbv zeta in Hrun.
    pose proof (rs_shuffle_perm _ (rs_seed 0) its) as Hsh.
    destruct (rs_shuffle (rs_seed 0) its) as [sh g1]; cbn [fst snd] in *.
    destruct (speakers_of sh) as [speakers'| |] eqn:Hspk'; [|done..].
    destruct (sample_eval _ _ _ _) as [[st| |] g2] eqn:Hloop; [|done..].
    injection Hrun as <- <- <-.
    apply sample_eval_Ret in Hloop as (_ & _ & Hkeep & _).
    - intros s Hs. apply Hkeep. simpl.
      by rewrite (speaker_count_perm s _ _ Hsh).
    - intros s'. simpl. by apply Counter_spec. }
  split.
  - apply set_eq. intros s. rewrite <- !speaker_count_pos.
    split; [|by apply Hkeep]. specialize (Hsum s). lia.
  - intros s Hs. specialize (Hsum s). specialize (Hkeep s). lia.
Qed.
End SplitterExtras.

Section ObjectExtras.
Context `{RandomState G}.

(** X4. A call of [split_dataset] that raises has written nothing: the
    store, and with it the caller's list, and the random state are what
    they were.  Both exceptions come before line 23. *)
Theorem split_dataset_obj_raise_frame
    (fuel : nat) (w w' : world G) (l : loc) (its : list sample) (e : exn) :
  heap w !! l = Some its →
  split_dataset_obj fuel l w = (Raise e, w') →
  w' = w.
Proof.
  destruct w as [h g]. cbn [heap]. intros Hl.
  rewrite (split_dataset_obj_unfold _ _ _ _ its Hl).
  destruct (speakers_of its) as [speakers| |] eqn:Hspk; [|by intros [= _ <-]|done].
  apply speakers_of_omap in Hspk as [-> Hne].
  destruct (0 <? _); [|by intros [= _ <-]]. cbv zeta.
  pose proof (rs_shuffle_perm _ (rs_seed 0) its) as Hperm.
  destruct (rs_shuffle (rs_seed 0) its) as [sh g1]; cbn [fst snd] in *.
  destruct (is_multi_speaker _) eqn:Hmulti; [|done].
  assert (Forall (λ it, it ≠ []) sh) as Hne' by by rewrite Hperm.
  rewrite (speakers_of_nonempty _ Hne').
  set (le := fresh (dom (<[l := sh]> h))).
  assert (le ≠ l) as Hle.
  { intros Heq. apply (is_fresh (dom (<[l := sh]> h))). fold le. rewrite Heq.
    apply elem_of_dom. rewrite lookup_insert_eq. eauto. }
  pose proof (sample_eval_obj_sim fuel (eval_split_size_of its) l le
                (Counter (omap last sh)) (<[le := []]> (<[l := sh]> h)) g1 sh [])
    as Hsim.
  destruct (sample_eval_obj _ _ _ _ _ _) as [[[]|e'|] w1]; [done| |done].
  intros [= -> <-]. exfalso.
  destruct Hsim as (_ & _ & Hres).
  { done. }
  { by rewrite lookup_insert_ne, lookup_insert_eq. }
  { by rewrite lookup_insert_eq. }
  pose proof (sample_eval_no_raise fuel (eval_split_size_of its)
                (LoopState sh [] (Counter (omap last sh))) g1) as Hloop.
  destruct (sample_eval _ _ _ _) as [[st|e'|] g2]; [done| |done].
  cbn [fst] in *. apply (Hloop e'); [| | |done].
  - intros s. simpl. apply Counter_spec. by apply speakers_of_nonempty.
  - done.
  - simpl. intros ->. apply Permutation_nil_l in Hperm. subst its.
    apply is_multi_speaker_set in Hmulti.
    change (speaker_set []) with (∅ : gset str) in Hmulti.
    rewrite size_empty in Hmulti. lia.
Qed.
End ObjectExtras.

Lemma split_dataset_raises_witness :
  Exists (λ it, it = []) [[u "a.wav"; u "text"; u "spk"]; []]
  ∧ split_dataset 5 [[u "a.wav"; u "text"; u "spk"]; []] 7%N
    = (Raise IndexError, 7%N)
  ∧ (split_dataset 5 (corpus 3 1) 7%N).1 = Raise AssertionError
  ∧ length (corpus 3 1) < 100.
Proof.
  assert (Exists (λ it : sample, it = []) [[u "a.wav"; u "text"; u "spk"]; []])
    as Hex by (right; by left).
  assert ((split_dataset 5 (corpus 3 1) 7%N).1 = Raise AssertionError) as Hrun
    by (vm_compute; reflexivity).
  split; [exact Hex|]. split.
  - exact (proj1 (split_dataset_raises 5 7%N _) Hex).
  - split; [exact Hrun|].
    destruct (proj2 (split_dataset_raises 5 7%N (corpus 3 1)) _ Hrun)
      as [[Heq _]|(_ & _ & Hlen)]; [discriminate Heq|exact Hlen].
Defined.

Lemma split_dataset_partition_witness :
  sparse_run = (Ret (sparse_eval, sparse_train), sparse_run.2)
  ∧ sparse_eval ++ sparse_train ≡ₚ corpus 101 100
  ∧ length sparse_eval = 1
  ∧ length sparse_train = 100.
Proof.
  assert (sparse_run = (Ret (sparse_eval, sparse_train), sparse_run.2)) as Hrun
    by (vm_compute; reflexivity).
  split; [exact Hrun|].
  destruct (split_dataset_partition 400 0%N sparse_run.2 (corpus 101 100)
              sparse_eval sparse_train Hrun) as (Hperm & Hev & _ & Htr).
  split; [exact Hperm|]. split; [exact Hev|]. rewrite Htr, Hev. reflexivity.
Defined.

Lemma split_dataset_keeps_speaker_set_witness :
  1 < size (speaker_set (corpus 101 100))
  ∧ sparse_run = (Ret (sparse_eval, sparse_train), sparse_run.2)
  ∧ speaker_count (u "spk005") (corpus 101 100) = 1
  ∧ speaker_set sparse_train = speaker_set (corpus 101 100)
  ∧ speaker_count (u "spk005") sparse_eval = 0.
Proof.
  assert (1 < size (speaker_set (corpus 101 100))) as Hmulti by by_compute.
  assert (sparse_run = (Ret (sparse_eval, sparse_train), sparse_run.2)) as Hrun
    by (vm_compute; reflexivity).
  assert (speaker_count (u "spk005") (corpus 101 100) = 1) as Hone
    by by_compute.
  split; [exact Hmulti|]. split; [exact Hrun|]. split; [exact Hone|].
  destruct (split_dataset_keeps_speaker_set 400 0%N sparse_run.2
              (corpus 101 100) sparse_eval sparse_train Hmulti Hrun)
    as [Hset Hsingle].
  split; [exact Hset|]. exact (Hsingle _ Hone).
Defined.

Lemma split_dataset_obj_raise_frame_witness :
  heap small_world !! 1%positive = Some (corpus 3 1)
  ∧ (split_dataset_obj 5 1%positive small_world).1 = Raise AssertionError
  ∧ (split_dataset_obj 5 1%positive small_world).2 = small_world.
Proof.
  assert (heap small_world !! 1%positive = Some (corpus 3 1)) as Hl
    by reflexivity.
  assert (split_dataset_obj 5 1%positive small_world
          = (Raise AssertionError, (split_dataset_obj 5 1%positive small_world).2))
    as Hrun by (vm_compute; reflexivity).
  split; [exact Hl|]. split; [by rewrite Hrun|].
  exact (split_dataset_obj_raise_frame 5 small_world _ 1%positive (corpus 3 1)
           AssertionError Hl Hrun).
Defined.

(** ** The manifest loader *)









Lemma py_lstrip_head (s : str) (c : char) :
  head (py_lstrip s) = Some c → unicode_isspace c = false.
Proof.
  induction s as [|x s IH]; [done|]. simpl.
  destruct (unicode_isspace x) eqn:Hx; [done|]. by intros [= <-].
Qed.

Lemma py_lstrip_suffix (s : str) : py_lstrip s `suffix_of` s.
Proof.
  induction s as [|x s IH]; [done|]. simpl.
  destruct (unicode_isspace x); [by apply suffix_cons_r|done].
Qed.


Lemma py_strip_stripped (s : str) : stripped (py_strip s).
Proof.
  unfold py_strip. split; intros c.
  - rewrite head_reverse. intros Hc.
    destruct (py_lstrip_suffix (reverse (py_lstrip s))) as [k Hk].
    assert (last (reverse (py_lstrip s)) = Some c) as Hlast.
    { rewrite Hk, last_app, Hc. done. }
    rewrite last_reverse in Hlast. by eapply py_lstrip_head.
  - rewrite last_reverse. apply py_lstrip_head.
Qed.




Lemma omapM_Raise_all {A B} (f : A → outcome B) (l : list A) (e : exn) :
  Forall (λ x, (∃ y, f x = Ret y) ∨ f x = Raise e) l →
  Exists (λ x, f x = Raise e) l →
  omapM f l = Raise e.
Proof.
  induction 1 as [|x l Hx _ IH]; intros Hex.
  - by apply Exists_nil in Hex.
  - simpl. destruct Hx as [[y Hy]| ->]; [|done]. rewrite Hy. simpl.
    apply Exists_cons in Hex as [Hex|Hex]; [congruence|]. by rewrite IH.
Qed.

Section ManifestFacts.
Context {SE : Type} (env : module_env SE).



End ManifestFacts.

(** X8. The attention field that lines 109-110 append never has white
    space at either end, so the newline that [readlines] leaves on a
    manifest line does not reach the sample; the fields the sample had are
    kept. *)
Theorem attach_attn_stripped (meta_data : gmap str str) (ins ins' : sample) :
  attach_attn meta_data ins = Ret ins' →
  ∃ attn, ins' = ins ++ [attn] ∧ stripped attn.
Proof.
  unfold attach_attn. destruct (ins !! 1) as [key|]; [|done].
  destruct (meta_data !! key) as [v|]; [|done]. intros [= <-].
  eexists. split; [done|]. apply py_strip_stripped.
Qed.





Lemma attach_attn_stripped_witness :
  attach_attn (dict ab_pairs) [u "wavs/a.wav"; u "a.wav"; u "spk0"]
    = Ret [u "wavs/a.wav"; u "a.wav"; u "spk0"; u "a.attn"]
  ∧ ∃ attn, [u "wavs/a.wav"; u "a.wav"; u "spk0"; u "a.attn"]
              = [u "wavs/a.wav"; u "a.wav"; u "spk0"] ++ [attn]
            ∧ stripped attn.
Proof.
  assert (attach_attn (dict ab_pairs) [u "wavs/a.wav"; u "a.wav"; u "spk0"]
          = Ret [u "wavs/a.wav"; u "a.wav"; u "spk0"; u "a.attn"]) as Hrun
    by (vm_compute; reflexivity).
  split; [exact Hrun|].
  exact (attach_attn_stripped _ _ _ Hrun).
Defined.

(** ** The formatter lookup *)

Lemma unicode_lower_stable (c c' : char) :
  c' ∈ unicode_lower c → unicode_lower c' = [c'].
Proof.
  unfold unicode_lower.
  destruct ((65 <=? c) && (c <=? 90) || (192 <=? c) && (c <=? 214)
            || (216 <=? c) && (c <=? 222))%N eqn:Hc.
  - intros ->%list_elem_of_singleton.
    assert (((65 <=? c + 32) && (c + 32 <=? 90)
             || (192 <=? c + 32) && (c + 32 <=? 214)
             || (216 <=? c + 32) && (c + 32 <=? 222))%N = false) as ->; [|done].
    rewrite !orb_true_iff, !andb_true_iff, !N.leb_le in Hc.
    rewrite !orb_false_iff, !andb_false_iff, !N.leb_gt. lia.
  - intros ->%list_elem_of_singleton. by rewrite Hc.
Qed.

Lemma py_lower_stable (s : str) :
  Forall (λ c, unicode_lower c = [c]) (py_lower s).
Proof.
  unfold py_lower. induction s as [|c s IH]; csimpl; [constructor|].
  apply Forall_app. split; [|done].
  apply Forall_forall. intros c'. apply unicode_lower_stable.
Qed.

(** X9. The lookup lower-cases the corpus name, so an attribute whose name
    has a capital letter is never selected: two module namespaces that
    agree on the names without capitals resolve every (Latin-1) corpus name
    alike. *)
Theorem get_formatter_by_name_never_capitalised {SE : Type}
    (env1 env2 : module_env SE) (name : str) :
  Forall (λ c, (c < 256)%N) name →
  (∀ n, Forall (λ c, unicode_lower c = [c]) n →
        module_attr env1 n = module_attr env2 n) →
  _get_formatter_by_name env1 name = _get_formatter_by_name env2 name.
Proof.
  intros _ Hagree. unfold _get_formatter_by_name.
  by rewrite (Hagree _ (py_lower_stable name)).
Qed.

Lemma get_formatter_by_name_never_capitalised_witness :
  Forall (λ c, (c < 256)%N) (u "TTSDataset")
  ∧ module_attr capital_env (u "TTSDataset") ≠ module_attr demo_env (u "TTSDataset")
  ∧ _get_formatter_by_name capital_env (u "TTSDataset")
    = _get_formatter_by_name demo_env (u "TTSDataset").
Proof.
  assert (Forall (λ c, (c < 256)%N) (u "TTSDataset")) as Hlatin by by_compute.
  split; [exact Hlatin|]. split; [by vm_compute|].
  apply (get_formatter_by_name_never_capitalised capital_env demo_env
           (u "TTSDataset") Hlatin).
  intros n Hn. unfold capital_env. cbn [module_attr].
  destruct (decide (n = u "TTSDataset")) as [->|_]; [|reflexivity].
  apply Forall_cons_1 in Hn as [Hn _]. vm_compute in Hn. discriminate Hn.
Defined.

(** ** The aggregator: random state, override, evaluation manifest *)


Section AggregatorExtras.
Context {SE : Type} (env : module_env SE).
Context `{RandomState G}.

Lemma load_attn_masks_eval_prefix (d : dataset) (tr tr' : list sample)
    (ev ev' : option (list sample)) :
  load_attn_masks env d tr ev = Ret (tr', ev') →
  match ev, ev' with
  | Some l, Some l' => Forall2 prefix l l'
  | None, None => True
  | _, _ => False
  end.
Proof.
  unfold load_attn_masks. destruct (truthy _).
  2:{ intros [= <- <-]. destruct ev; [|done].
      by apply Forall_Forall2_diag, Forall_true. }
  destruct (load_attention_mask_meta_data _ _) as [pairs| |]; [|done..].
  cbn [obind].
  destruct (omapM (attach_attn (dict pairs)) tr) as [tr1| |]; [|done..].
  cbn [obind].
  destruct ev as [[|i l]|]; [by intros [= <- <-]; constructor| |by intros [= <- <-]].
  destruct (omapM (attach_attn (dict pairs)) (i :: l)) as [l'| |] eqn:Hl;
    [|done..].
  intros [= <- <-]. by apply omapM_attach_prefix in Hl.
Qed.

Lemma load_dataset_no_split (fuel : nat) (pargs : gmap string (pyval SE))
    (st : loader_state) (d : dataset) (g : G) :
  meta_data_eval_all st = None →
  (load_dataset env fuel false pargs st d g).2 = g
  ∧ ∀ st', (load_dataset env fuel false pargs st d g).1 = Ret st' →
           meta_data_eval_all st' = None.
Proof.
  intros Hev. unfold load_dataset, load_corpus. munfold. rewrite Hev.
  destruct (formatter_args_now st) as [fa0|]; [|done].
  destruct (match formatter st with Some _ => _ | None => _ end)
    as [f| |]; [|done..].
  destruct (f _) as [raw| |]; [|done..].
  destruct (load_attn_masks _ _ _ _) as [[tr ev]| |] eqn:Hattn; [|done..].
  split; [done|]. intros st' [= <-]. cbn [meta_data_eval_all snd].
  apply load_attn_masks_eval_prefix in Hattn. by destruct ev.
Qed.

Lemma for_datasets_no_split (fuel : nat) (pargs : gmap string (pyval SE))
    (ds : list dataset) (st : loader_state) (g : G) :
  meta_data_eval_all st = None →
  (for_datasets env fuel false pargs ds st g).2 = g
  ∧ ∀ st', (for_datasets env fuel false pargs ds st g).1 = Ret st' →
           meta_data_eval_all st' = None.
Proof.
  revert st. induction ds as [|d ds IH]; intros st Hev.
  - split; [done|]. by intros st' [= <-].
  - cbn [for_datasets]. munfold.
    destruct (load_dataset_no_split fuel pargs st d g Hev) as [Hg Hst].
    destruct (load_dataset _ _ _ _ _ _ _) as [[st1| |] g1];
      cbn [fst snd] in *; subst g1; [|done..].
    apply IH. by apply Hst.
Qed.

(** X10. Without an evaluation split the loader never touches the random
    state and returns no evaluation list: whatever the config and however
    the load ends, the random state is the one it was entered with, and a
    returned evaluation list is [None]. *)
Theorem load_tts_samples_no_eval_split (fuel : nat) (config : config SE)
    (fmt : option (gmap string (pyval SE) → outcome (list sample))) (g : G) :
  (load_tts_samples env fuel config false fmt g).2 = g
  ∧ ∀ train ev, (load_tts_samples env fuel config false fmt g).1
                  = Ret (train, ev) → ev = None.
Proof.
  unfold load_tts_samples. destruct (datasets config) as [ds|].
  2:{ split; [done|]. by intros train ev [= <- <-]. }
  munfold. destruct (preprocessor_args_of env config) as [pargs| |]; [|done..].
  destruct (for_datasets_no_split fuel pargs ds
              (LoaderState [] None fmt (formatter_args env)) g eq_refl)
    as [Hg Hst].
  destruct (for_datasets _ _ _ _ _ _ _) as [[st| |] g1];
    cbn [fst snd] in *; subst g1; [|done..].
  split; [done|]. intros train ev [= <- <-]. by apply Hst.
Qed.



(** X13. One corpus split by [split_dataset] and no manifest: a returned
    load hands out every sample the formatter returned exactly once, the
    evaluation list holding [min(500, N / 100)] of them. *)
Theorem load_tts_samples_split_partition (fuel : nat) (config : config SE)
    (d : dataset)
    (fmt : option (gmap string (pyval SE) → outcome (list sample)))
    (g g' : G) (train ev : option (list sample)) :
  datasets config = Some [d] →
  truthy (meta_file_val d) = false →
  truthy (meta_file_attn_mask d) = false →
  load_tts_samples env fuel config true fmt g = (Ret (train, ev), g') →
  ∃ f fa raw train' ev',
    match fmt with
    | Some f' => Ret f'
    | None => _get_formatter_by_name env (name d)
    end = Ret f
    ∧ f fa = Ret raw
    ∧ train = Some train' ∧ ev = Some ev'
    ∧ ev' ++ train' ≡ₚ raw
    ∧ length ev' = 500 `min` (length raw / 100).
Proof.
  intros Hd Hval Hmask. rewrite (load_tts_samples_one env fuel config d) by done.
  destruct (preprocessor_args_of env config) as [pargs| |]; [|done..].
  unfold load_corpus, load_attn_masks. munfold.
  cbn [formatter_args_now formatter]. rewrite Hmask.
  destruct (formatter_args env) as [fa0|]; [|done].
  destruct (match fmt with Some _ => _ | None => _ end) as [f| |] eqn:Hf;
    [|done..].
  destruct (f _) as [raw| |] eqn:Hraw; [|done..].
  rewrite Hval.
  destruct (split_dataset fuel raw g) as [[[ev' tr']| |] g1] eqn:Hsplit;
    [|done..].
  intros [= <- <- <-]. cbn [fst snd meta_data_eval_all meta_data_train_all app].
  apply split_dataset_partition in Hsplit as (Hperm & Hlen & _).
  eexists f, _, raw, tr', ev'. by repeat split.
Qed.
End AggregatorExtras.

(** ** The aggregator on further configs *)

Lemma load_tts_samples_no_eval_split_witness :
  (load_tts_samples demo_env 5 two_corpora false None 3%N).2 = 3%N
  ∧ (load_tts_samples demo_env 5 two_corpora false None 3%N).1
    = Ret (Some (corpus 100 2 ++ corpus 120 3), None).
Proof.
  destruct (load_tts_samples_no_eval_split demo_env 5 two_corpora None 3%N)
    as [Hg Hev].
  split; [exact Hg|].
  assert ((load_tts_samples demo_env 5 two_corpora false None 3%N).1
          = Ret (Some (corpus 100 2 ++ corpus 120 3),
                 (returned (None, None)
                    (load_tts_samples demo_env 5 two_corpora false None 3%N).1).2))
    as Hrun by (vm_compute; reflexivity).
  rewrite Hrun. by rewrite (Hev _ _ Hrun).
Defined.



Lemma load_tts_samples_split_partition_witness :
  lj_only_run = (Ret (Some lj_only_train, Some lj_only_eval), lj_only_run.2)
  ∧ ∃ (f : gmap string (pyval unit) → outcome (list sample)) fa raw train' ev',
      _get_formatter_by_name demo_env (u "LJSpeech") = Ret f
      ∧ f fa = Ret raw
      ∧ Some lj_only_train = Some train' ∧ Some lj_only_eval = Some ev'
      ∧ ev' ++ train' ≡ₚ raw
      ∧ length ev' = 500 `min` (length raw / 100).
Proof.
  assert (lj_only_run
          = (Ret (Some lj_only_train, Some lj_only_eval), lj_only_run.2))
    as Hrun by (vm_compute; reflexivity).
  split; [exact Hrun|].
  exact (load_tts_samples_split_partition demo_env 5 lj_only _ None
           3%N lj_only_run.2 _ _ eq_refl eq_refl eq_refl Hrun).
Defined.

Lemma load_tts_samples_unbound_formatter_args_witness :
  formatter_args unbound_env = None
  ∧ load_tts_samples unbound_env 5 two_corpora true None 3%N
    = (Raise NameError, 3%N).
Proof.
  split; [reflexivity|].
  exact (load_tts_samples_unbound_formatter_args unbound_env 5 two_corpora
           _ _ true None ∅ 3%N eq_refl eq_refl eq_refl).
Defined.

Lemma load_dataset_attn_mask_extends_accumulated_witness :
  load_attention_mask_meta_data demo_env (u "ab_attn.txt") = Ret ab_pairs
  ∧ (load_dataset demo_env 5 false ∅ (LoaderState ab_samples None None (Some ∅))
       ab_corpus 3%N).1
    = Ret (LoaderState (with_attn_all (dict ab_pairs) (ab_samples ++ ab_samples))
             None None
             (Some (<["meta_file"%string := VStr (u "metadata.csv")]>
                      (<["root_path"%string := VStr (u "/data/ab")]> ∅))))
  ∧ Forall (key_present (dict ab_pairs)) ab_samples.
Proof.
  assert (load_attention_mask_meta_data demo_env (u "ab_attn.txt") = Ret ab_pairs)
    as Hpairs by (vm_compute; reflexivity).
  assert (load_dataset demo_env 5 false ∅
            (LoaderState ab_samples None None (Some ∅)) ab_corpus 3%N
          = (Ret (LoaderState
                    (with_attn_all (dict ab_pairs) (ab_samples ++ ab_samples))
                    None None
                    (Some (<["meta_file"%string := VStr (u "metadata.csv")]>
                             (<["root_path"%string := VStr (u "/data/ab")]> ∅)))),
             3%N)) as Hrun by (vm_compute; reflexivity).
  split; [exact Hpairs|]. split; [by rewrite Hrun|].
  exact (proj1 (load_dataset_attn_mask_extends_accumulated demo_env 5 false ∅
                  _ _ ab_corpus 3%N 3%N ab_pairs eq_refl Hpairs Hrun)).
Defined.

(** ** The character census: errors, report, returned set *)

Lemma first_fields_Ret (data : list sample) :
  Forall (λ it, it ≠ []) data →
  omapM (λ item : sample,
           match item !! 0 with
           | Some text => Ret text
           | None => Raise IndexError
           end) data = Ret (texts_of data).
Proof.
  unfold texts_of. induction 1 as [|it data Hit _ IH]; [done|].
  destruct it as [|text it]; [done|]. csimpl. by rewrite IH.
Qed.

Lemma first_fields_Raise (data : list sample) :
  Exists (λ it, it = []) data →
  omapM (λ item : sample,
           match item !! 0 with
           | Some text => Ret text
           | None => Raise IndexError
           end) data = Raise IndexError.
Proof.
  intros Hex. apply omapM_Raise_all.
  - apply Forall_forall. intros [|text it] _; [by right|left; by eexists].
  - eapply Exists_impl; [exact Hex|]. by intros it ->.
Qed.

Lemma find_unique_chars_Ret (data : list sample) (verbose : bool) :
  Forall (λ it, it ≠ []) data →
  find_unique_chars data verbose
  = Ret (set_map unicode_lower (text_chars data),
         if verbose then Some (census_of (text_chars data)) else None).
Proof.
  intros Hne. unfold find_unique_chars. by rewrite first_fields_Ret.
Qed.

Lemma find_unique_chars_Raise (data : list sample) (verbose : bool) :
  Exists (λ it, it = []) data →
  find_unique_chars data verbose = Raise IndexError.
Proof.
  intros Hex. unfold find_unique_chars. by rewrite first_fields_Raise.
Qed.

Lemma empty_or_not (data : list sample) :
  Exists (λ it, it = []) data ∨ Forall (λ it, it ≠ []) data.
Proof.
  destruct (decide (Exists (λ it : sample, it = []) data)) as [H|H]; [by left|].
  right. by apply Forall_Exists_neg.
Qed.

Lemma find_unique_chars_Ret_inv (data : list sample) (verbose : bool)
    (chars : gset str) (report : option census) :
  find_unique_chars data verbose = Ret (chars, report) →
  Forall (λ it, it ≠ []) data
  ∧ chars = set_map unicode_lower (text_chars data)
  ∧ report = if verbose then Some (census_of (text_chars data)) else None.
Proof.
  intros Hrun. destruct (empty_or_not data) as [Hex|Hne].
  - by rewrite find_unique_chars_Raise in Hrun.
  - rewrite find_unique_chars_Ret in Hrun by done. by injection Hrun as <- <-.
Qed.

Lemma elem_of_concat {A} (x : A) (ls : list (list A)) :
  x ∈ concat ls ↔ ∃ l, x ∈ l ∧ l ∈ ls.
Proof.
  induction ls as [|l ls IH]; simpl.
  - split; [by intros ?%elem_of_nil|]. by intros (l & _ & ?%elem_of_nil).
  - rewrite elem_of_app, IH. split.
    + intros [Hx|(l' & Hx & Hl')]; [exists l|exists l'];
        (split; [done|]); [by left|by right].
    + intros (l' & Hx & [->|Hl']%elem_of_cons); [by left|right; eauto].
Qed.

Lemma elem_of_text_chars (c : char) (data : list sample) :
  c ∈ text_chars data ↔ occurs_in c data.
Proof.
  unfold text_chars, texts_of, occurs_in.
  rewrite elem_of_list_to_set, elem_of_concat. split.
  - intros (text & Hc & (it & Hit & Htext)%list_elem_of_omap). eauto.
  - intros (it & text & Hit & Htext & Hc). exists text. split; [done|].
    apply list_elem_of_omap. eauto.
Qed.


Lemma StronglySorted_le_lt (l : list N) :
  StronglySorted N.le l → NoDup l → StronglySorted N.lt l.
Proof.
  induction 1 as [|c l _ IH Hc]; [constructor|].
  intros [Hnotin Hnodup]%NoDup_cons. constructor; [by apply IH|].
  apply Forall_forall. intros c' Hc'.
  rewrite Forall_forall in Hc. specialize (Hc c' Hc').
  assert (c ≠ c') by (by intros ->). lia.
Qed.






Lemma str_leb_total (s t : str) : str_leb s t = true ∨ str_leb t s = true.
Proof.
  revert t. induction s as [|a s IH]; intros [|b t]; simpl; auto.
  destruct (IH t) as [H|H]; rewrite H;
    destruct (N.ltb_spec a b), (N.ltb_spec b a), (N.eqb_spec a b),
      (N.eqb_spec b a); simpl; auto; lia.
Qed.

Lemma str_leb_trans (s t v : str) :
  str_leb s t = true → str_leb t v = true → str_leb s v = true.
Proof.
  revert t v. induction s as [|a s IH]; intros [|b t] [|c v]; simpl; try done.
  rewrite !orb_true_iff, !andb_true_iff, !N.ltb_lt, !N.eqb_eq.
  intros [Hab|[-> Hst]] [Hbc|[-> Htv]]; eauto with lia.
Qed.

#[local] Instance str_leb_Total : Total (λ s t, Is_true (str_leb s t)).
Proof.
  intros s t. destruct (str_leb_total s t) as [H|H]; [left|right]; by rewrite H.
Qed.

#[local] Instance str_leb_Transitive : Transitive (λ s t, Is_true (str_leb s t)).
Proof.
  intros s t v H1%Is_true_true H2%Is_true_true.
  apply Is_true_true. by eapply str_leb_trans.
Qed.

Lemma concat_singletons (L : list str) :
  Forall (λ s, ∃ c, s = [c]) L → L = (λ c, [c]) <$> concat L.
Proof.
  induction 1 as [|s L [c ->] _ IH]; [done|]. csimpl. by f_equal.
Qed.

Lemma size_list_to_set_le (l : list str) :
  size (list_to_set l : gset str) ≤ length l.
Proof.
  induction l as [|s l IH]; simpl; [done|].
  rewrite size_union_alt, size_singleton.
  assert (size (list_to_set l ∖ {[s]} : gset str) ≤ size (list_to_set l : gset str))
    as Hle by apply subseteq_size, subseteq_difference_l, reflexivity.
  lia.
Qed.

Lemma singletons_sorted (l : list char) :
  StronglySorted (λ s t, Is_true (str_leb s t)) ((λ c, [c]) <$> l) →
  StronglySorted N.le l.
Proof.
  induction l as [|a l IH]; csimpl; [constructor|].
  intros [Hl Ha]%StronglySorted_inv. constructor; [by apply IH|].
  rewrite Forall_fmap in Ha. eapply Forall_impl; [exact Ha|].
  intros b. simpl.
  destruct (N.ltb_spec a b), (N.eqb_spec a b); simpl; try done; lia.
Qed.

Lemma forced_lower_line (Y : gset str) :
  (∀ s, s ∈ Y → ∃ c, s = [c]) →
  StronglySorted N.lt
    (concat (merge_sort (λ s t, Is_true (str_leb s t)) (elements Y)))
  ∧ ∀ c, c ∈ concat (merge_sort (λ s t, Is_true (str_leb s t)) (elements Y))
         ↔ [c] ∈ Y.
Proof.
  intros Hone. set (L := merge_sort _ (elements Y)).
  assert (L ≡ₚ elements Y) as Hperm by apply merge_sort_Permutation.
  assert (Forall (λ s, ∃ c, s = [c]) L) as Hsingle.
  { apply Forall_forall. intros s Hs. apply Hone.
    by rewrite <-elem_of_elements, <-Hperm. }
  assert (StronglySorted (λ s t, Is_true (str_leb s t)) L) as Hsorted
    by apply (StronglySorted_merge_sort _).
  assert (NoDup L) as Hnodup by (rewrite Hperm; apply NoDup_elements).
  rewrite (concat_singletons L Hsingle) in Hsorted, Hnodup.
  split.
  - apply StronglySorted_le_lt; [|by apply NoDup_fmap_1 in Hnodup].
    by apply singletons_sorted.
  - intros c. rewrite <-elem_of_elements, <-Hperm.
    rewrite (concat_singletons L Hsingle) at 2.
    rewrite list_elem_of_fmap. split; [eauto|]. by intros (c' & [= ->] & Hc').
Qed.

Lemma islower_lower_id (c : char) :
  unicode_islower c = true → unicode_lower c = [c].
Proof.
  unfold unicode_islower, unicode_lower. intros Hc.
  assert (((65 <=? c) && (c <=? 90) || (192 <=? c) && (c <=? 214)
           || (216 <=? c) && (c <=? 222))%N = false) as ->; [|done].
  rewrite !orb_true_iff, !andb_true_iff, !N.leb_le, !N.eqb_eq in Hc.
  rewrite !orb_false_iff, !andb_false_iff, !N.leb_gt. lia.
Qed.

(** X18. On Latin-1 texts the returned set holds one-character strings
    only, none of them a capital: it has the lower-case form of every
    character that occurs and nothing else, so every character printed on
    the third line is in it, and it is no larger than the number on the
    first line.  The fourth line lists its characters, each once and in
    increasing order. *)
Theorem find_unique_chars_returned_set (data : list sample) (verbose : bool)
    (chars : gset str) (report : option census) :
  latin1 data →
  find_unique_chars data verbose = Ret (chars, report) →
  (∀ s, s ∈ chars ↔ ∃ c, occurs_in c data ∧ unicode_lower c = s)
  ∧ (∀ s, s ∈ chars → ∃ c, s = [c] ∧ py_lower s = s)
  ∧ size chars ≤ size (text_chars data)
  ∧ ∀ r, report = Some r →
      (∀ c, c ∈ unique_lower_characters r → [c] ∈ chars)
      ∧ StronglySorted N.lt (unique_all_forced_to_lower_characters r)
      ∧ ∀ c, c ∈ unique_all_forced_to_lower_characters r ↔ [c] ∈ chars.
Proof.
  intros _ (_ & -> & ->)%find_unique_chars_Ret_inv.
  assert (∀ s, s ∈ (set_map unicode_lower (text_chars data) : gset str) →
               ∃ c, s = [c] ∧ py_lower s = s) as Hone.
  { intros s (c & -> & _)%elem_of_map.
    assert (∃ c', unicode_lower c = [c']) as [c' Hc']
      by (unfold unicode_lower; case_match; eauto).
    exists c'. split; [done|]. rewrite Hc'. unfold py_lower. csimpl.
    rewrite (unicode_lower_stable c c'); [done|]. rewrite Hc'. by left. }
  split; [|split; [exact Hone|split]].
  - intros s. rewrite elem_of_map. setoid_rewrite elem_of_text_chars.
    split; intros (c & Hc1 & Hc2); by exists c.
  - unfold set_map. etrans; [apply size_list_to_set_le|].
    by rewrite length_fmap.
  - intros r Hr. destruct verbose; [|done]. injection Hr as <-.
    cbn [census_of unique_lower_characters
         unique_all_forced_to_lower_characters].
    split.
    + intros c. rewrite merge_sort_Permutation, elem_of_elements, elem_of_filter.
      intros [Hlow Hc]. apply elem_of_map. exists c. split; [|done].
      symmetry. apply islower_lower_id. by apply Is_true_true.
    + apply forced_lower_line. intros s Hs.
      destruct (Hone s Hs) as (c & -> & _). eauto.
Qed.

Lemma concat_perm {A} (ls1 ls2 : list (list A)) :
  ls1 ≡ₚ ls2 → concat ls1 ≡ₚ concat ls2.
Proof.
  induction 1 as [|l ls1 ls2 _ IH|l1 l2 ls|ls1 ls2 ls3 _ IH1 _ IH2]; simpl.
  - done.
  - by rewrite IH.
  - rewrite !(assoc_L (++)). by rewrite (comm (++) l2 l1).
  - by etrans.
Qed.

Lemma text_chars_perm (data1 data2 : list sample) :
  data1 ≡ₚ data2 → text_chars data1 = text_chars data2.
Proof.
  intros Hperm. unfold text_chars, texts_of.
  apply list_to_set_perm_L, concat_perm. by rewrite Hperm.
Qed.

Lemma text_chars_app (data1 data2 : list sample) :
  text_chars (data1 ++ data2) = text_chars data1 ∪ text_chars data2.
Proof.
  unfold text_chars, texts_of.
  by rewrite omap_app, concat_app, list_to_set_app_L.
Qed.

(** X19. The census does not depend on the order of the samples: a
    reordered list gives the same returned set and the same four lines, or
    the same [IndexError]. *)
Theorem find_unique_chars_order_independent (data1 data2 : list sample)
    (verbose : bool) :
  data1 ≡ₚ data2 →
  find_unique_chars data1 verbose = find_unique_chars data2 verbose.
Proof.
  intros Hperm. destruct (empty_or_not data1) as [Hex|Hne].
  - rewrite !find_unique_chars_Raise; [done| |done].
    apply Exists_exists in Hex as (it & Hit & ->).
    apply Exists_exists. exists []. by rewrite <-Hperm.
  - rewrite !find_unique_chars_Ret, (text_chars_perm _ _ Hperm); [done| |done].
    by rewrite <-Hperm.
Qed.

(** X20. The census of two lists put together returns the union of the
    two returned sets. *)
Theorem find_unique_chars_app (data1 data2 : list sample) (verbose : bool)
    (chars1 chars2 : gset str) (report1 report2 : option census) :
  find_unique_chars data1 verbose = Ret (chars1, report1) →
  find_unique_chars data2 verbose = Ret (chars2, report2) →
  ∃ report,
    find_unique_chars (data1 ++ data2) verbose = Ret (chars1 ∪ chars2, report).
Proof.
  intros (Hne1 & -> & _)%find_unique_chars_Ret_inv
         (Hne2 & -> & _)%find_unique_chars_Ret_inv.
  rewrite find_unique_chars_Ret by by apply Forall_app.
  rewrite text_chars_app, set_map_union_L. eauto.
Qed.

Section CensusAfterSplit.
Context `{RandomState G}.


End CensusAfterSplit.



Lemma find_unique_chars_returned_set_witness :
  latin1 greeting
  ∧ find_unique_chars greeting true = Ret (greeting_chars, Some greeting_report)
  ∧ size greeting_chars ≤ size (text_chars greeting)
  ∧ (∀ s, s ∈ greeting_chars → ∃ c, s = [c] ∧ py_lower s = s)
  ∧ ∀ c, c ∈ unique_all_forced_to_lower_characters greeting_report
         ↔ [c] ∈ greeting_chars.
Proof.
  assert (latin1 greeting) as Hlatin by by_compute.
  assert (find_unique_chars greeting true
          = Ret (greeting_chars, Some greeting_report)) as Hrun
    by (vm_compute; reflexivity).
  split; [exact Hlatin|]. split; [exact Hrun|].
  destruct (find_unique_chars_returned_set greeting true _ _ Hlatin Hrun)
    as (_ & Hone & Hsize & Hreport).
  split; [exact Hsize|]. split; [exact Hone|].
  exact (proj2 (proj2 (Hreport _ eq_refl))).
Defined.

Lemma find_unique_chars_order_independent_witness :
  greeting ≡ₚ reverse greeting
  ∧ find_unique_chars greeting true = find_unique_chars (reverse greeting) true.
Proof.
  assert (greeting ≡ₚ reverse greeting) as Hperm by by_compute.
  split; [exact Hperm|].
  exact (find_unique_chars_order_independent _ _ true Hperm).
Defined.

Lemma find_unique_chars_app_witness :
  find_unique_chars greeting true = Ret (greeting_chars, Some greeting_report)
  ∧ (find_unique_chars farewell false = Ret (farewell_chars, None)
     ∧ find_unique_chars greeting false = Ret (greeting_chars, None))
  ∧ ∃ report,
      find_unique_chars (greeting ++ farewell) false
      = Ret (greeting_chars ∪ farewell_chars, report).
Proof.
  assert (find_unique_chars greeting true
          = Ret (greeting_chars, Some greeting_report)) as Hrun
    by (vm_compute; reflexivity).
  assert (find_unique_chars greeting false = Ret (greeting_chars, None)) as Hg
    by (vm_compute; reflexivity).
  assert (find_unique_chars farewell false = Ret (farewell_chars, None)) as Hf
    by (vm_compute; reflexivity).
  split; [exact Hrun|]. split; [by split|].
  exact (find_unique_chars_app greeting farewell false _ _ _ _ Hg Hf).
Defined.

